(** * convert_to_webp.py: batch conversion of images to WebP

    A shallow embedding of the script [convert_to_webp.py] and the proofs of
    the properties its specification states about it.

    The script is a sequential driver around three external programs
    ([exiftool], [sips], [cwebp]) and the file system.  The embedding keeps
    the script's own control flow (its functions, its [try]/[except] blocks,
    its two global counters) and treats the external programs as an
    arbitrary oracle: a function from the command line, the current set of
    existing paths and the history of earlier invocations to an outcome and
    a new set of existing paths.  Console output is not modelled. *)

From stdpp Require Import base decidable option list sets gmap strings pretty.
From Stdlib Require Import Ascii String ZArith Lia.

Open Scope string_scope.
Open Scope list_scope.
Open Scope nat_scope.

Set Warnings "-clear-no-such-hyp".

(** ** Text helpers *)

Module Text.

(** [str.lower()] restricted to the ASCII letters. The only comparison the
    script makes on a lowered string is against [".heic"], whose letters
    have no other upper-case form. *)
Definition lower_ascii (c : ascii) : ascii :=
  let n := nat_of_ascii c in
  if (65 <=? n)%nat && (n <=? 90)%nat then ascii_of_nat (n + 32) else c.

Fixpoint lower (s : string) : string :=
  match s with
  | EmptyString => EmptyString
  | String c r => String (lower_ascii c) (lower r)
  end.

(** [s.rfind(c)]: the index of the last occurrence of [c] in [s]. *)
Fixpoint rfind (c : ascii) (s : string) : option nat :=
  match s with
  | EmptyString => None
  | String a r =>
      match rfind c r with
      | Some i => Some (S i)
      | None => if Ascii.eqb a c then Some 0%nat else None
      end
  end.

(** The glob pattern ["*" + lit] (no other wildcard in [lit]) matched
    against a whole name: the star takes nothing and the rest is [lit], or
    the star takes one more character of the name. *)
Fixpoint endswith (s lit : string) : bool :=
  String.eqb s lit
  || match s with
     | EmptyString => false
     | String _ r => endswith r lit
     end.

(** [s.split(sep)] for a separator of one character. *)
Fixpoint split (sep : ascii) (s : string) : list string :=
  match s with
  | EmptyString => [EmptyString]
  | String c r =>
      if Ascii.eqb c sep then EmptyString :: split sep r
      else match split sep r with
           | [] => [String c EmptyString]
           | x :: xs => String c x :: xs
           end
  end.

(** [c * n], the character [c] repeated [n] times. *)
Fixpoint repeat (c : ascii) (n : nat) : string :=
  match n with
  | O => EmptyString
  | S n' => String c (repeat c n')
  end.

(** [s.lstrip(c)]. *)
Fixpoint lstrip (c : ascii) (s : string) : string :=
  match s with
  | EmptyString => EmptyString
  | String a r => if Ascii.eqb a c then lstrip c r else s
  end.

End Text.

(** ** pathlib *)

Module Pathlib.

(** [PurePath.suffix] and [PurePath.stem], as functions of the final
    component [name] of the path: split at the last dot, unless that dot is
    the first or the last character of the name. Applied to a whole path
    string they are pathlib's only when that string is a bare file name
    ([is_name] below), as the candidates of the script are. *)
Definition split_at_suffix (name : string) : option nat :=
  match Text.rfind "." name with
  | Some i =>
      if (0 <? i)%nat && (i <? String.length name - 1)%nat then Some i else None
  | None => None
  end.

Definition suffix (name : string) : string :=
  match split_at_suffix name with
  | Some i => String.substring i (String.length name - i) name
  | None => ""
  end.

Definition stem (name : string) : string :=
  match split_at_suffix name with
  | Some i => String.substring 0 i name
  | None => name
  end.

(** [str(Path(dir) / name)] when [dir] and [name] are bare names, as the
    script's [webp_output] and the file names it builds are; the general
    case is [truediv] below. *)
Definition joinpath (dir name : string) : string := dir +:+ "/" +:+ name.

(** A bare file name, as the entries of a directory are: not empty, not
    ["."], without ["/"]. *)
Definition is_name (s : string) : bool :=
  negb (String.eqb s "") && negb (String.eqb s ".")
  && bool_decide (Text.rfind "/" s = None).

(** A pure POSIX path as pathlib keeps it: the root ([""], ["/"] or
    ["//"]) and the components after it. *)
Record PurePath : Type := mkPath { root : string; parts : list string }.

(** [_PosixFlavour.splitroot]: exactly two leading slashes are kept, any
    other number of them is one. *)
Definition splitroot (part : string) : string * string :=
  match part with
  | EmptyString => ("", part)
  | String c _ =>
      if Ascii.eqb c "/" then
        let stripped := Text.lstrip "/" part in
        (if String.length part - String.length stripped =? 2 then "//" else "/",
         stripped)
      else ("", part)
  end.

(** Empty components and ["."] are dropped when a path is parsed. *)
Definition is_component (x : string) : bool :=
  negb (String.eqb x "") && negb (String.eqb x ".").

(** [PurePosixPath(s)]. *)
Definition parse (s : string) : PurePath :=
  let '(root, rel) := splitroot s in
  mkPath root (List.filter is_component (Text.split "/" rel)).

(** [p / key]: a [key] with a root replaces [p]. *)
Definition truediv (p : PurePath) (key : string) : PurePath :=
  let q := parse key in
  if String.eqb (root q) "" then mkPath (root p) (parts p ++ parts q) else q.

(** [str(p)]. *)
Definition str (p : PurePath) : string :=
  let s := root p +:+ String.concat "/" (parts p) in
  if String.eqb s "" then "." else s.

(** [p.name]: the final component, if there is one. *)
Definition name (p : PurePath) : string := List.last (parts p) "".

End Pathlib.

(** ** Configuration (lines 9-12) *)

Definition input_dir : string := ".".
Definition output_dir : string := "webp_output".
Definition quality : nat := 80.
Definition formats : list string :=
  [".jpg"; ".jpeg"; ".png"; ".heic"; ".HEIC"; ".JPG"; ".JPEG"; ".PNG"].

(** ** Output naming (lines 81-90)

    The file system is the finite set of the paths that exist. *)

Definition plain_path (out_dir stem : string) : string :=
  Pathlib.joinpath out_dir (stem +:+ ".webp").

Definition numbered_path (out_dir stem : string) (counter : nat) : string :=
  Pathlib.joinpath out_dir (stem +:+ "_" +:+ pretty counter +:+ ".webp").

(** The [while] loop of [get_unique_output_path], one iteration per unit of
    fuel; [None] when the fuel runs out before the loop exits. *)
Fixpoint unique_loop (fuel : nat) (fs : gset string) (out_dir stem : string)
    (output_path : string) (counter : nat) : option string :=
  match fuel with
  | O => None
  | S fuel' =>
      if bool_decide (output_path ∈ fs)
      then unique_loop fuel' fs out_dir stem
             (numbered_path out_dir stem counter) (S counter)
      else Some output_path
  end.

(** The loop tests one path per iteration and the paths it tests are
    pairwise different, so it exits within [size fs + 2] iterations
    ([unique_loop_enough_fuel] below); the default is never used. *)
Definition get_unique_output_path (fs : gset string) (base_path out_dir : string)
    : string :=
  let stem := Pathlib.stem base_path in
  let output_path := plain_path out_dir stem in
  default output_path
    (unique_loop (size fs + 2) fs out_dir stem output_path 1).

(** ** External programs, exceptions and the state of a run *)

(** How an invocation of an external program ends: the program ran and
    exited with a return code, or it could not be started (Python raises
    [FileNotFoundError]). *)
Inductive Outcome : Type :=
| Exited (returncode : Z)
| NoExecutable.

Global Instance Outcome_eq_dec : EqDecision Outcome.
Proof. solve_decision. Defined.

(** One invocation: the argument vector and how it ended. *)
Definition Event : Type := list string * Outcome.

(** The external world: what an invocation does, given the paths that exist
    and everything that was invoked before. *)
Definition Tool : Type :=
  list string → gset string → list Event → Outcome * gset string.

(** The state the script works on: the file system, the invocations made so
    far (oldest first) and the two global counters of lines 112-113. *)
Record State : Type := mkState {
  st_fs : gset string;
  st_trace : list Event;
  successful_conversions : nat;
  metadata_preserved : nat
}.

Inductive Exn : Type :=
| CalledProcessError (cmd : list string) (returncode : Z)
| FileNotFoundError
| OSError
| Exception (msg : string).

Definition is_CalledProcessError (e : Exn) : bool :=
  match e with CalledProcessError _ _ => true | _ => false end.

Definition is_FileNotFoundError (e : Exn) : bool :=
  match e with FileNotFoundError => true | _ => false end.

(** Every exception above derives from Python's [Exception]. *)
Definition is_Exception (e : Exn) : bool := true.

Inductive Res (A : Type) : Type :=
| Ret (a : A)
| Raise (e : Exn).
Arguments Ret {A} a.
Arguments Raise {A} e.

(** Computations that read and write the state and may raise. *)
Definition M (A : Type) : Type := State → Res A * State.

Definition ret {A} (a : A) : M A := λ st, (Ret a, st).

Definition raise {A} (e : Exn) : M A := λ st, (Raise e, st).

Definition bind {A B} (m : M A) (k : A → M B) : M B := λ st,
  match m st with
  | (Ret a, st') => k a st'
  | (Raise e, st') => (Raise e, st')
  end.

Notation "x <- m ;; k" := (bind m (λ x, k))
  (at level 100, m at next level, right associativity).
Notation "m ;; k" := (bind m (λ _, k))
  (at level 100, right associativity).

(** The first [except] clause whose class test accepts the exception. *)
Fixpoint find_handler {A} (handlers : list ((Exn → bool) * (Exn → M A)))
    (e : Exn) : option (Exn → M A) :=
  match handlers with
  | [] => None
  | (accepts, h) :: rest => if accepts e then Some h else find_handler rest e
  end.

(** [try: body except ...]. *)
Definition try_except {A} (body : M A)
    (handlers : list ((Exn → bool) * (Exn → M A))) : M A := λ st,
  match body st with
  | (Ret a, st') => (Ret a, st')
  | (Raise e, st') =>
      match find_handler handlers e with
      | Some h => h e st'
      | None => (Raise e, st')
      end
  end.

(** [for x in xs: body(x)]. *)
Fixpoint for_each {A} (xs : list A) (body : A → M unit) : M unit :=
  match xs with
  | [] => ret tt
  | x :: rest => body x ;; for_each rest body
  end.

(** File-system primitives. *)

(** [os.makedirs(path, exist_ok=True)] for a single-component path. *)
Definition makedirs (path : string) : M unit := λ st,
  (Ret tt, mkState ({[path]} ∪ st_fs st) (st_trace st)
             (successful_conversions st) (metadata_preserved st)).

(** [Path.unlink()]: raises when the path does not exist. *)
Definition unlink (path : string) : M unit := λ st,
  if bool_decide (path ∈ st_fs st)
  then (Ret tt, mkState (st_fs st ∖ {[path]}) (st_trace st)
                  (successful_conversions st) (metadata_preserved st))
  else (Raise FileNotFoundError, st).

(** The two counter updates of lines 144 and 149. *)
Definition incr_metadata_preserved : M unit := λ st,
  (Ret tt, mkState (st_fs st) (st_trace st)
             (successful_conversions st) (metadata_preserved st + 1)).

Definition incr_successful_conversions : M unit := λ st,
  (Ret tt, mkState (st_fs st) (st_trace st)
             (successful_conversions st + 1) (metadata_preserved st)).

(** ** Command lines *)

Definition exiftool_ver_cmd : list string := ["exiftool"; "-ver"].

Definition copy_all_cmd (source_path dest_path : string) : list string :=
  ["exiftool"; "-TagsFromFile"; source_path; "-all:all";
   "-overwrite_original"; dest_path].

Definition date_fields : list string :=
  ["-CreateDate"; "-ModifyDate"; "-DateTimeOriginal"; "-FileCreateDate";
   "-FileModifyDate"].

Definition copy_dates_cmd (source_path dest_path : string) : list string :=
  ["exiftool"; "-TagsFromFile"; source_path] ++ date_fields
    ++ ["-overwrite_original"; dest_path].

Definition sips_cmd (heic_path jpeg_path : string) : list string :=
  ["sips"; "-s"; "format"; "jpeg"; heic_path; "--out"; jpeg_path].

Definition cwebp_cmd (source_path output_path : string) : list string :=
  ["cwebp"; "-q"; pretty quality; "-metadata"; "all"; source_path; "-o";
   output_path].

(** ** Discovery (lines 104-107)

    [entries] are the names of the directory entries of [input_dir], in the
    order the directory is enumerated; [Path.glob] matches names against the
    pattern case-sensitively on POSIX. *)
Definition glob_star (entries : list string) (fmt : string) : list string :=
  List.filter (λ name, Text.endswith name fmt) entries.

Definition discover (entries : list string) : list string :=
  List.flat_map (glob_star entries) formats.

(** The figures of the final report (lines 162-165), and the cached result
    of the probe of line 96. *)
Record Summary : Type := mkSummary {
  total_images : nat;
  converted : nat;
  with_metadata : nat;
  has_exiftool_flag : bool
}.

(** The state a run starts from. *)
Definition initial_state (fs0 : gset string) : State := mkState fs0 [] 0 0.

(** ** The script's functions, over an arbitrary external world *)

Section Script.

Variable tool : Tool.

(** [subprocess.run(cmd, check=True)]. *)
Definition subprocess_run (cmd : list string) : M unit := λ st,
  let '(o, fs') := tool cmd (st_fs st) (st_trace st) in
  let st' := mkState fs' (st_trace st ++ [(cmd, o)])
               (successful_conversions st) (metadata_preserved st) in
  match o with
  | Exited rc =>
      if decide (rc = 0%Z) then (Ret tt, st')
      else (Raise (CalledProcessError cmd rc), st')
  | NoExecutable => (Raise FileNotFoundError, st')
  end.

(** Lines 14-20. *)
Definition check_exiftool : M bool :=
  try_except
    (subprocess_run exiftool_ver_cmd ;; ret true)
    [(λ e, is_CalledProcessError e || is_FileNotFoundError e, λ _, ret false)].

(** Lines 30-63. *)
Definition copy_metadata (source_path dest_path : string) : M bool :=
  try_except
    (subprocess_run (copy_all_cmd source_path dest_path) ;;
     subprocess_run (copy_dates_cmd source_path dest_path) ;;
     ret true)
    [(is_CalledProcessError, λ _, ret false)].

(** Lines 65-79. *)
Definition convert_heic_to_jpeg (heic_path jpeg_path : string) : M bool :=
  try_except
    (subprocess_run (sips_cmd heic_path jpeg_path) ;;
     available <- check_exiftool ;;
     (if available
      then (_ <- copy_metadata heic_path jpeg_path ;; ret tt)
      else ret tt) ;;
     ret true)
    [(is_CalledProcessError, λ _, ret false)].

(** Line 116: the output path is computed from the file system as it is
    when the job starts. *)
Definition reserve (img_path : string) : M string := λ st,
  (Ret (get_unique_output_path (st_fs st) img_path output_dir), st).

Definition is_heic (img_path : string) : bool :=
  String.eqb (Text.lower (Pathlib.suffix img_path)) ".heic".

Definition temp_jpg_path (img_path : string) : string :=
  Pathlib.joinpath output_dir (Pathlib.stem img_path +:+ "_temp.jpg").

(** Lines 119-139: the conversion proper. *)
Definition convert_step (img_path output_path : string) : M unit :=
  if is_heic img_path then
    let temp_jpg := temp_jpg_path img_path in
    decoded <- convert_heic_to_jpeg img_path temp_jpg ;;
    (if negb decoded
     then raise (Exception "Failed to convert HEIC to JPEG")
     else ret tt) ;;
    subprocess_run (cwebp_cmd temp_jpg output_path) ;;
    unlink temp_jpg
  else
    subprocess_run (cwebp_cmd img_path output_path).

(** Lines 141-147: the metadata copy onto the output. *)
Definition metadata_step (has_exiftool : bool) (img_path output_path : string)
    : M unit :=
  if has_exiftool then
    copied <- copy_metadata img_path output_path ;;
    if copied then incr_metadata_preserved else ret tt
  else ret tt.

(** Lines 119-149: the body of the [try]. *)
Definition job_body (has_exiftool : bool) (img_path output_path : string)
    : M unit :=
  convert_step img_path output_path ;;
  metadata_step has_exiftool img_path output_path ;;
  incr_successful_conversions.

(** Lines 116-160: one iteration of the main loop. Both handlers only
    print. *)
Definition process_image (has_exiftool : bool) (img_path : string) : M unit :=
  output_path <- reserve img_path ;;
  try_except (job_body has_exiftool img_path output_path)
    [(is_CalledProcessError, λ _, ret tt); (is_Exception, λ _, ret tt)].

(** Lines 115-160. *)
Definition main_loop (has_exiftool : bool) (image_files : list string)
    : M unit :=
  for_each image_files (process_image has_exiftool).

(** Lines 92-96: create the output directory, probe for exiftool. *)
Definition startup : M bool :=
  makedirs output_dir ;; check_exiftool.

(** Lines 162-165: the figures printed at the end. *)
Definition report (has_exiftool : bool) (image_files : list string)
    : M Summary := λ st,
  (Ret (mkSummary (List.length image_files) (successful_conversions st)
          (metadata_preserved st) has_exiftool), st).

(** Lines 92-165: the whole script. *)
Definition main (entries : list string) : M Summary :=
  has_exiftool <- startup ;;
  let image_files := discover entries in
  main_loop has_exiftool image_files ;;
  report has_exiftool image_files.

(** The state of a run of the script from the file system [fs0] at the
    moment [k] iterations of the main loop are complete. *)
Definition after_jobs (entries : list string) (fs0 : gset string) (k : nat)
    : State :=
  match startup (initial_state fs0) with
  | (Ret has_exiftool, st) =>
      (main_loop has_exiftool (take k (discover entries)) st).2
  | (Raise _, st) => st
  end.

(** The output path of every job of the loop, each with the file system
    it was computed from. *)
Fixpoint reservations (has_exiftool : bool) (image_files : list string)
    (st : State) : list (gset string * string) :=
  match image_files with
  | [] => []
  | img_path :: rest =>
      (st_fs st, get_unique_output_path (st_fs st) img_path output_dir)
      :: reservations has_exiftool rest
           (process_image has_exiftool img_path st).2
  end.

(** The reservations of a whole run. *)
Definition run_reservations (entries : list string) (fs0 : gset string)
    : list (gset string * string) :=
  match startup (initial_state fs0) with
  | (Ret has_exiftool, st) => reservations has_exiftool (discover entries) st
  | (Raise _, _) => []
  end.

End Script.

(** ** The script with pathlib's parsing and the errors of [stat]

    Above, the candidates are bare file names and every existence test is
    answered. Here the paths are parsed and joined as pathlib does for any
    string, and [Path.exists()] is pathlib's: it calls [stat], answers
    [False] for the errors ENOENT, ENOTDIR, EBADF and ELOOP and re-raises
    any other [OSError]. The rest of the script is as above. *)

Module Posix.

Definition plain_path (out_dir stem : string) : string :=
  Pathlib.str (Pathlib.truediv (Pathlib.parse out_dir) (stem +:+ ".webp")).

Definition numbered_path (out_dir stem : string) (counter : nat) : string :=
  Pathlib.str
    (Pathlib.truediv (Pathlib.parse out_dir)
       (stem +:+ "_" +:+ pretty counter +:+ ".webp")).

(** [Path.exists()]; [raises p]: [stat] on [p] fails with an error that is
    re-raised. *)
Definition path_exists (raises : string → bool) (fs : gset string)
    (p : string) : Res bool :=
  if raises p then Raise OSError else Ret (bool_decide (p ∈ fs)).

(** The [while] loop of lines 86-88, one iteration per unit of fuel. *)
Fixpoint unique_loop (raises : string → bool) (fuel : nat) (fs : gset string)
    (out_dir stem : string) (output_path : string) (counter : nat)
    : option (Res string) :=
  match fuel with
  | O => None
  | S fuel' =>
      match path_exists raises fs output_path with
      | Raise e => Some (Raise e)
      | Ret true =>
          unique_loop raises fuel' fs out_dir stem
            (numbered_path out_dir stem counter) (S counter)
      | Ret false => Some (Ret output_path)
      end
  end.

(** Lines 81-90. As above, [size fs + 2] iterations are enough and the
    default is never used ([Posix_unique_loop_enough_fuel]). *)
Definition get_unique_output_path (raises : string → bool) (fs : gset string)
    (base_path out_dir : string) : Res string :=
  let stem := Pathlib.stem (Pathlib.name (Pathlib.parse base_path)) in
  let output_path := plain_path out_dir stem in
  default (Ret output_path)
    (unique_loop raises (size fs + 2) fs out_dir stem output_path 1).

(** Which existence tests fail, given the paths that exist and the
    invocations made so far. *)
Definition Stat : Type := gset string → list Event → string → bool.

Section Script.

Variable tool : Tool.
Variable stat : Stat.

(** Line 116. *)
Definition reserve (img_path : string) : M string := λ st,
  (get_unique_output_path (stat (st_fs st) (st_trace st)) (st_fs st)
     img_path output_dir, st).

(** Lines 116-160: the output path is chosen before the [try] is entered. *)
Definition process_image (has_exiftool : bool) (img_path : string) : M unit :=
  output_path <- reserve img_path ;;
  try_except (job_body tool has_exiftool img_path output_path)
    [(is_CalledProcessError, λ _, ret tt); (is_Exception, λ _, ret tt)].

(** Lines 115-160. *)
Definition main_loop (has_exiftool : bool) (image_files : list string)
    : M unit :=
  for_each image_files (process_image has_exiftool).

(** Lines 92-165. *)
Definition main (entries : list string) : M Summary :=
  has_exiftool <- startup tool ;;
  let image_files := discover entries in
  main_loop has_exiftool image_files ;;
  report has_exiftool image_files.

End Script.

End Posix.

(** ** Sample external worlds

    [sample_tool ver copy sips cwebp] answers every [exiftool -ver] with
    [ver], every other [exiftool] invocation with [copy], and so on; [sips]
    and [cwebp] create the file named by their last argument when they exit
    with return code 0. *)
Definition sample_tool (ver copy sips cwebp : Outcome) : Tool :=
  λ cmd fs _,
    let prog := hd "" cmd in
    let target := List.last cmd "" in
    let creates (o : Outcome) :=
      (o, if decide (o = Exited 0) then {[target]} ∪ fs else fs) in
    if decide (cmd = exiftool_ver_cmd) then (ver, fs)
    else if decide (prog = "exiftool") then (copy, fs)
    else if decide (prog = "sips") then creates sips
    else if decide (prog = "cwebp") then creates cwebp
    else (NoExecutable, fs).

Definition all_tools_work : Tool :=
  sample_tool (Exited 0) (Exited 0) (Exited 0) (Exited 0).

Definition cwebp_fails : Tool :=
  sample_tool (Exited 0) (Exited 0) (Exited 0) (Exited 1).

Definition no_exiftool : Tool :=
  sample_tool NoExecutable NoExecutable (Exited 0) (Exited 0).

(** exiftool is missing at the first invocation of the run and present
    afterwards. *)
Definition exiftool_installed_later : Tool :=
  λ cmd fs tr,
    if decide (cmd = exiftool_ver_cmd)
    then (if decide (tr = []) then NoExecutable else Exited 0, fs)
    else all_tools_work cmd fs tr.

Definition copy_fails : Tool :=
  sample_tool (Exited 0) (Exited 1) (Exited 0) (Exited 0).

(** Existence tests that are always answered. *)
Definition stat_answers : Posix.Stat := λ _ _ _, false.

(** The longest file name the file system accepts, in bytes (NAME_MAX on
    Linux and macOS); [stat] on a path with a longer component fails with
    ENAMETOOLONG, which [Path.exists()] re-raises. *)
Definition name_max : nat := 255.

Definition name_too_long (p : string) : bool :=
  existsb (λ x, (name_max <? String.length x)%nat) (Text.split "/" p).

Definition stat_name_max : Posix.Stat := λ _ _ p, name_too_long p.

(** A stem of 251 bytes: the source name [long_stem + ".png"] has 255 bytes
    and can exist, the output name [long_stem + ".webp"] has 256. *)
Definition long_stem : string := Text.repeat "a" 251.

(** ** Vocabulary of the statements *)

(** [out_dir/name] as pathlib writes it: the directory in its parsed form,
    and no separator after a directory that has no component (["."], [""]
    or a bare root). *)
Definition in_directory (out_dir name : string) : string :=
  let p := Pathlib.parse out_dir in
  match Pathlib.parts p with
  | [] => Pathlib.root p +:+ name
  | _ :: _ => Pathlib.str p +:+ "/" +:+ name
  end.

(** The paths the output namer tests, in the order it tests them:
    [stem.webp], [stem_1.webp], [stem_2.webp], ... *)
Definition tested_path (out_dir stem : string) (k : nat) : string :=
  match k with
  | O => in_directory out_dir (stem +:+ ".webp")
  | S _ => in_directory out_dir (stem +:+ "_" +:+ pretty k +:+ ".webp")
  end.

(** The command that starts the conversion of [img]: the decoder on the
    two-step path, the encoder reading [img] itself otherwise. *)
Definition attempts (img : string) (cmd : list string) : Prop :=
  cmd = sips_cmd img (temp_jpg_path img) ∨ ∃ out, cmd = cwebp_cmd img out.

(** One of the two passes of [copy_metadata src dst], started in state [st],
    ends with the non-zero return code [rc]: the all-tags pass, or the
    date-tags pass after the all-tags pass exited with 0. [cmd] is the pass
    that fails and [fs'] the file system it leaves. *)
Definition metadata_pass_fails (tool : Tool) (src dst : string) (st : State)
    (cmd : list string) (rc : Z) (fs' : gset string) : Prop :=
  rc ≠ 0%Z ∧
  ((cmd = copy_all_cmd src dst
    ∧ tool cmd (st_fs st) (st_trace st) = (Exited rc, fs'))
   ∨ (cmd = copy_dates_cmd src dst
      ∧ ∃ fs1, tool (copy_all_cmd src dst) (st_fs st) (st_trace st)
                 = (Exited 0, fs1)
               ∧ tool cmd fs1
                   (st_trace st ++ [(copy_all_cmd src dst, Exited 0)])
                 = (Exited rc, fs'))).

(** The command a conversion starts with. *)
Definition first_cmd (img out : string) : list string :=
  if is_heic img then sips_cmd img (temp_jpg_path img) else cwebp_cmd img out.

(** Invocations of the capability probe, and decodes that exited with 0. *)
Definition is_probe (ev : Event) : bool := bool_decide (ev.1 = exiftool_ver_cmd).

Definition is_decode_ok (ev : Event) : bool :=
  bool_decide (hd "" ev.1 = "sips") && bool_decide (ev.2 = Exited 0).

Definition count_probes (l : list Event) : nat := List.length (List.filter is_probe l).

Definition count_decodes_ok (l : list Event) : nat :=
  List.length (List.filter is_decode_ok l).

(** An [exiftool] tag copy whose destination is [dst]. *)
Definition copies_tags_to (dst : string) (cmd : list string) : Prop :=
  ∃ src, cmd = copy_all_cmd src dst ∨ cmd = copy_dates_cmd src dst.

(** ** Relations between the state before and the state after

    [respects R m]: whatever state [m] starts from, [R] relates it to the
    state [m] leaves. *)
Definition respects (R : relation State) {A : Type} (m : M A) : Prop :=
  ∀ st, R st (m st).2.

Definition same_counters : relation State := λ st st',
  successful_conversions st' = successful_conversions st
  ∧ metadata_preserved st' = metadata_preserved st.

Definition same_metadata_count : relation State := λ st st',
  metadata_preserved st' = metadata_preserved st.

Definition trace_grows : relation State := λ st st',
  st_trace st `prefix_of` st_trace st'.

(** [keeps I]: a property of the state, once true, stays true. *)
Definition keeps (I : State → Prop) : relation State := λ st st', I st → I st'.

(** The probes and the successful decodes added to the trace are equally
    many. *)
Definition probe_balance : relation State := λ st st',
  count_probes (st_trace st') + count_decodes_ok (st_trace st)
  = count_probes (st_trace st) + count_decodes_ok (st_trace st').

(** An invocation that is no tag copy onto a [.webp] path. *)
Definition spares_webp (ev : Event) : Prop :=
  ∀ dst, copies_tags_to dst ev.1 → Text.endswith dst ".webp" = false.

(** External programs that never remove a path. *)
Definition tools_keep_files (tool : Tool) : Prop :=
  ∀ cmd fs tr, fs ⊆ (tool cmd fs tr).2.

(** The encoder, when it exits with 0, has created its output. *)
Definition cwebp_creates_output (tool : Tool) : Prop :=
  ∀ src out fs tr,
    (tool (cwebp_cmd src out) fs tr).1 = Exited 0 →
    out ∈ (tool (cwebp_cmd src out) fs tr).2.

(** The output paths of the jobs of the loop that end up counted in
    [successful_conversions], in job order. *)
Fixpoint converted_outputs (tool : Tool) (has_exiftool : bool)
    (image_files : list string) (st : State) : list string :=
  match image_files with
  | [] => []
  | img_path :: rest =>
      let st' := (process_image tool has_exiftool img_path st).2 in
      (if (successful_conversions st <? successful_conversions st')%nat
       then [get_unique_output_path (st_fs st) img_path output_dir]
       else [])
      ++ converted_outputs tool has_exiftool rest st'
  end.

(** [p] exists. *)
Definition file_exists (p : string) (st : State) : Prop := p ∈ st_fs st.

(** The name ends in one of the listed extensions. *)
Definition has_listed_extension (name : string) : bool :=
  existsb (Text.endswith name) formats.

(** A command that writes: a tag copy, a decode or an encode, whose
    destination is a path inside the output directory. *)
Definition writes_into_output_dir (cmd : list string) : Prop :=
  ∃ src name,
    let dst := Pathlib.joinpath output_dir name in
    cmd = copy_all_cmd src dst ∨ cmd = copy_dates_cmd src dst
    ∨ cmd = sips_cmd src dst ∨ cmd = cwebp_cmd src dst.

(** What the script may invoke: the probe, or a command that writes into
    the output directory. *)
Definition expected_command (ev : Event) : Prop :=
  ev.1 = exiftool_ver_cmd ∨ writes_into_output_dir ev.1.

(** One of the two passes of [copy_metadata src dst], started in state
    [st], cannot be started at all (no exiftool executable): the all-tags
    pass, or the date-tags pass after the all-tags pass exited with 0.
    [fs'] is the file system at that moment. *)
Definition metadata_pass_cannot_start (tool : Tool) (src dst : string)
    (st : State) (fs' : gset string) : Prop :=
  tool (copy_all_cmd src dst) (st_fs st) (st_trace st) = (NoExecutable, fs')
  ∨ ∃ fs1, tool (copy_all_cmd src dst) (st_fs st) (st_trace st)
             = (Exited 0, fs1)
           ∧ tool (copy_dates_cmd src dst) fs1
               (st_trace st ++ [(copy_all_cmd src dst, Exited 0)])
             = (NoExecutable, fs').

(** exiftool is there for the probe and gone for everything else. *)
Definition exiftool_vanishes : Tool :=
  sample_tool (Exited 0) NoExecutable (Exited 0) (Exited 0).

(** Every tool exits with 0, but the decoder writes nothing. *)
Definition sips_writes_nothing : Tool :=
  λ cmd fs tr,
    if decide (hd "" cmd = "sips") then (Exited 0, fs)
    else all_tools_work cmd fs tr.

(** How many invocations of the program [prog] a trace holds. *)
Definition count_prog (prog : string) (l : list Event) : nat :=
  List.length (List.filter (λ ev, bool_decide (hd "" ev.1 = prog)) l).

(** [within s c n st st']: the trace grew by at most [n] events, among
    them exactly [s] invocations of sips and at most [c] of cwebp. *)
Definition within (s c n : nat) (st st' : State) : Prop :=
  ∃ l, st_trace st' = st_trace st ++ l
       ∧ count_prog "sips" l = s
       ∧ count_prog "cwebp" l ≤ c
       ∧ List.length l ≤ n.

(** Case analysis on the outcome of the next invocation in the goal. *)
Ltac run_cases tool :=
  unfold subprocess_run;
  match goal with
  | |- context [tool ?cmd ?fs ?tr] =>
      let o := fresh "o" in
      let fs' := fresh "fs'" in
      let rc := fresh "rc" in
      let E := fresh "Etool" in
      destruct (tool cmd fs tr) as [o fs'] eqn:E;
      destruct o as [rc|]; [destruct (decide (rc = 0%Z))|]; simpl
  end.

(** * Theorems *)

Section StringFacts.

Lemma app_cons (c : ascii) (s t : string) :
  String c s +:+ t = String c (s +:+ t).
Proof. reflexivity. Qed.

Lemma length_app_str (s t : string) :
  String.length (s +:+ t) = String.length s + String.length t.
Proof.
  induction s as [|c s IH]; [done|]. rewrite app_cons. simpl. by rewrite IH.
Qed.

Lemma app_assoc_str (s t u : string) : (s +:+ t) +:+ u = s +:+ (t +:+ u).
Proof.
  induction s as [|c s IH]; [done|]. rewrite !app_cons. by rewrite IH.
Qed.

(** Cancellation of a common ending. *)
Lemma app_inv_tail_str (t s1 s2 : string) : s1 +:+ t = s2 +:+ t → s1 = s2.
Proof.
  revert s2. induction s1 as [|c s1 IH]; intros [|d s2] H.
  - done.
  - apply (f_equal String.length) in H. rewrite !length_app_str in H. simpl in H. lia.
  - apply (f_equal String.length) in H. rewrite !length_app_str in H. simpl in H. lia.
  - rewrite !app_cons in H. injection H as -> H. f_equal. by apply IH.
Qed.

Lemma numbered_path_inj out_dir stem : Inj (=) (=) (numbered_path out_dir stem).
Proof.
  intros j k H. unfold numbered_path, Pathlib.joinpath in H.
  do 4 apply String.app_inj in H.
  apply app_inv_tail_str in H. by apply (inj pretty) in H.
Qed.

End StringFacts.

Section OutputNamer.

Context (fs : gset string) (out_dir stem : string).

Abbreviation numbered := (numbered_path out_dir stem).

(** What the loop returns, when it returns. *)
Lemma unique_loop_result fuel output_path counter p :
  unique_loop fuel fs out_dir stem output_path counter = Some p →
  ((output_path ∉ fs) ∧ p = output_path)
  ∨ (output_path ∈ fs ∧
     ∃ k, counter ≤ k ∧ p = numbered k ∧ (numbered k ∉ fs) ∧
          ∀ j, counter ≤ j < k → numbered j ∈ fs).
Proof.
  revert output_path counter.
  induction fuel as [|fuel IH]; intros output_path counter; simpl; [done|].
  case_bool_decide as Hin; [|intros [= <-]; by left].
  intros Hloop. right. split; [done|].
  destruct (IH _ _ Hloop) as [[Hfree ->]|[Htaken (k & Hle & -> & Hfree & Hbelow)]].
  - exists counter. split; [lia|]. split; [done|]. split; [done|]. intros j ?; lia.
  - exists k. split; [lia|]. split; [done|]. split; [done|].
    intros j Hj. destruct (decide (j = counter)) as [->|]; [done|].
    apply Hbelow. lia.
Qed.

(** The loop exits as soon as a free numbered path is within reach. *)
Lemma unique_loop_exits fuel output_path counter k :
  counter ≤ k → numbered k ∉ fs → k - counter + 2 ≤ fuel →
  is_Some (unique_loop fuel fs out_dir stem output_path counter).
Proof.
  revert output_path counter.
  induction fuel as [|fuel IH]; intros output_path counter Hle Hfree Hfuel;
    simpl; [lia|].
  case_bool_decide as Hin; [|by eexists].
  destruct (decide (k = counter)) as [->|Hne].
  - destruct fuel as [|fuel]; [lia|]. simpl.
    rewrite bool_decide_eq_false_2 by done. by eexists.
  - apply IH; [lia|done|lia].
Qed.

(** Pigeonhole: among [size fs + 1] numbered paths one is free. *)
Lemma numbered_path_free : ∃ k, 1 ≤ k ≤ size fs + 1 ∧ (numbered k ∉ fs).
Proof.
  set (ks := seq 1 (size fs + 1)).
  destruct (decide (Forall (λ k, numbered k ∈ fs) ks)) as [Hall|Hsome].
  - exfalso.
    assert (NoDup (numbered <$> ks)) as Hnd.
    { apply NoDup_fmap_2; [apply numbered_path_inj | apply NoDup_seq]. }
    assert (numbered <$> ks ⊆+ elements fs) as Hsub.
    { apply NoDup_submseteq; [done|]. intros p Hp.
      apply list_elem_of_fmap in Hp as (k & -> & Hk).
      apply elem_of_elements. by apply (proj1 (Forall_forall _ _) Hall). }
    apply submseteq_length in Hsub.
    rewrite length_fmap in Hsub. subst ks. rewrite length_seq in Hsub.
    change (List.length (elements fs)) with (size fs) in Hsub. lia.
  - apply not_Forall_Exists in Hsome; [|apply _].
    apply Exists_exists in Hsome as (k & Hk & Hfree).
    subst ks. apply elem_of_seq in Hk. exists k. split; [lia|done].
Qed.

Lemma unique_loop_enough_fuel output_path :
  is_Some (unique_loop (size fs + 2) fs out_dir stem output_path 1).
Proof.
  destruct numbered_path_free as (k & Hk & Hfree).
  apply (unique_loop_exits _ _ _ k); [lia|done|lia].
Qed.

End OutputNamer.

(** The specification of [get_unique_output_path], for use below. *)
Lemma get_unique_output_path_spec (fs : gset string) (base_path out_dir : string) :
  let stem := Pathlib.stem base_path in
  let p := get_unique_output_path fs base_path out_dir in
  unique_loop (size fs + 2) fs out_dir stem (plain_path out_dir stem) 1 = Some p
  ∧ ((plain_path out_dir stem ∉ fs) → p = plain_path out_dir stem)
  ∧ (plain_path out_dir stem ∈ fs →
     ∃ k, 1 ≤ k ∧ p = numbered_path out_dir stem k
          ∧ (numbered_path out_dir stem k ∉ fs)
          ∧ ∀ j, 1 ≤ j < k → numbered_path out_dir stem j ∈ fs)
  ∧ (p ∉ fs).
Proof.
  intros stem p. subst p. unfold get_unique_output_path.
  fold stem.
  destruct (unique_loop_enough_fuel fs out_dir stem (plain_path out_dir stem))
    as [p Hp].
  rewrite Hp. simpl. split; [done|].
  destruct (unique_loop_result _ _ _ _ _ _ _ Hp)
    as [[Hfree ->]|[Htaken (k & Hle & -> & Hfree & Hbelow)]].
  - split; [done|]. split; [done|]. done.
  - split; [done|]. split; [|done]. intros _. by exists k.
Qed.

Lemma get_unique_output_path_free fs base_path out_dir :
  get_unique_output_path fs base_path out_dir ∉ fs.
Proof. apply get_unique_output_path_spec. Qed.


(** The two end-to-end naming scenarios of the specification. *)
Example naming_fresh :
  get_unique_output_path ∅ "x.png" "webp_output" = "webp_output/x.webp".
Proof. vm_compute. reflexivity. Qed.

Example naming_taken :
  get_unique_output_path {["webp_output/x.webp"]} "x.png" "webp_output"
  = "webp_output/x_1.webp".
Proof. vm_compute. reflexivity. Qed.


(** ** Reasoning about computations *)

Section Monad.

Context {A B : Type}.

Lemma bind_Ret (m : M A) (k : A → M B) st a st1 :
  m st = (Ret a, st1) → bind m k st = k a st1.
Proof. unfold bind. by intros ->. Qed.

End Monad.

Section Respects.

Context (R : relation State) `{!PreOrder R}.

Lemma respects_ret {A} (a : A) : respects R (ret a).
Proof. intros st. simpl. reflexivity. Qed.

Lemma respects_raise {A} e : respects R (@raise A e).
Proof. intros st. simpl. reflexivity. Qed.

Lemma respects_bind {A B} (m : M A) (k : A → M B) :
  respects R m → (∀ a, respects R (k a)) → respects R (bind m k).
Proof.
  intros Hm Hk st. unfold bind. specialize (Hm st).
  destruct (m st) as [[a|e] st1]; simpl in *; [|done].
  etrans; [exact Hm | apply Hk].
Qed.

Lemma respects_try_except {A} (m : M A) hs :
  respects R m → Forall (λ h, ∀ e, respects R (h.2 e)) hs →
  respects R (try_except m hs).
Proof.
  intros Hm Hhs st. unfold try_except. specialize (Hm st).
  destruct (m st) as [[a|e] st1]; simpl in *; [done|].
  induction Hhs as [|[accepts h] hs Hh _ IH]; simpl; [done|].
  destruct (accepts e); [|done]. etrans; [exact Hm | apply Hh].
Qed.

(** What follows the first computation of a sequence, or the body of a
    [try], relates the state it left to the final one. *)
Lemma respects_after_bind {A B} (m : M A) (k : A → M B) st :
  (∀ a, respects R (k a)) → R (m st).2 (bind m k st).2.
Proof.
  intros Hk. unfold bind. destruct (m st) as [[a|e] st1]; simpl; [|done].
  apply Hk.
Qed.

Lemma respects_after_try {A} (m : M A) hs st :
  Forall (λ h, ∀ e, respects R (h.2 e)) hs → R (m st).2 (try_except m hs st).2.
Proof.
  intros Hhs. unfold try_except. destruct (m st) as [[a|e] st1]; simpl; [done|].
  induction Hhs as [|[accepts h] hs Hh _ IH]; simpl; [done|].
  destruct (accepts e); [apply Hh | done].
Qed.

Lemma respects_for_each {A} (xs : list A) body :
  (∀ x, respects R (body x)) → respects R (for_each xs body).
Proof.
  intros Hbody. induction xs as [|x xs IH]; simpl.
  - apply respects_ret.
  - apply respects_bind; [apply Hbody | done].
Qed.

Lemma respects_reserve img_path : respects R (reserve img_path).
Proof. intros st. simpl. reflexivity. Qed.

(** The script's functions respect [R] as soon as the primitives they use
    do. *)
Section Functions.

Context (tool : Tool).

Abbreviation run := (subprocess_run tool).

Lemma respects_check_exiftool :
  respects R (run exiftool_ver_cmd) → respects R (check_exiftool tool).
Proof.
  intros Hrun. apply respects_try_except.
  - apply respects_bind; [done | intros; apply respects_ret].
  - repeat constructor. intros; apply respects_ret.
Qed.

Lemma respects_copy_metadata src dst :
  respects R (run (copy_all_cmd src dst)) →
  respects R (run (copy_dates_cmd src dst)) →
  respects R (copy_metadata tool src dst).
Proof.
  intros Hall Hdates. apply respects_try_except.
  - apply respects_bind; [done | intros _].
    apply respects_bind; [done | intros; apply respects_ret].
  - repeat constructor. intros; apply respects_ret.
Qed.

Lemma respects_convert_heic_to_jpeg heic jpeg :
  respects R (run (sips_cmd heic jpeg)) →
  respects R (run exiftool_ver_cmd) →
  respects R (run (copy_all_cmd heic jpeg)) →
  respects R (run (copy_dates_cmd heic jpeg)) →
  respects R (convert_heic_to_jpeg tool heic jpeg).
Proof.
  intros Hsips Hver Hall Hdates. apply respects_try_except.
  - apply respects_bind; [done | intros _].
    apply respects_bind; [by apply respects_check_exiftool | intros b].
    apply respects_bind; [|intros; apply respects_ret].
    destruct b; [|apply respects_ret].
    apply respects_bind; [by apply respects_copy_metadata|].
    intros; apply respects_ret.
  - repeat constructor. intros; apply respects_ret.
Qed.

Lemma respects_convert_step img out :
  respects R (convert_heic_to_jpeg tool img (temp_jpg_path img)) →
  (∀ path, respects R (unlink path)) →
  (∀ src, respects R (run (cwebp_cmd src out))) →
  respects R (convert_step tool img out).
Proof.
  intros Hheic Hunlink Hcwebp. unfold convert_step.
  destruct (is_heic img); [|done].
  apply respects_bind; [done | intros b].
  apply respects_bind.
  { destruct (negb b); [apply respects_raise | apply respects_ret]. }
  intros _. apply respects_bind; [done | intros _; done].
Qed.

Lemma respects_metadata_step has_exiftool img out :
  (has_exiftool = true → respects R (copy_metadata tool img out)) →
  (has_exiftool = true → respects R incr_metadata_preserved) →
  respects R (metadata_step tool has_exiftool img out).
Proof.
  intros Hcopy Hincr. unfold metadata_step.
  destruct has_exiftool; [|apply respects_ret].
  apply respects_bind; [by apply Hcopy | intros b].
  destruct b; [by apply Hincr | apply respects_ret].
Qed.

Lemma respects_process_image has_exiftool img :
  (∀ out, respects R (convert_step tool img out)) →
  (∀ out, respects R (metadata_step tool has_exiftool img out)) →
  respects R incr_successful_conversions →
  respects R (process_image tool has_exiftool img).
Proof.
  intros Hconvert Hmeta Hincr. unfold process_image.
  apply respects_bind; [apply respects_reserve | intros out].
  apply respects_try_except.
  - unfold job_body. apply respects_bind; [done | intros _].
    apply respects_bind; [done | intros _; done].
  - repeat constructor; intros; apply respects_ret.
Qed.

(** When every primitive respects [R], so does the whole loop. *)
Section AllPrimitives.

Hypothesis Hrun : ∀ cmd, respects R (run cmd).
Hypothesis Hunlink : ∀ path, respects R (unlink path).
Hypothesis Hincr_success : respects R incr_successful_conversions.
Hypothesis Hincr_metadata : respects R incr_metadata_preserved.

Lemma respects_copy_metadata_all src dst : respects R (copy_metadata tool src dst).
Proof. by apply respects_copy_metadata. Qed.

Lemma respects_convert_step_all img out : respects R (convert_step tool img out).
Proof.
  apply respects_convert_step; [|done..].
  by apply respects_convert_heic_to_jpeg.
Qed.

Lemma respects_metadata_step_all has_exiftool img out :
  respects R (metadata_step tool has_exiftool img out).
Proof.
  apply respects_metadata_step; [|done].
  intros _. apply respects_copy_metadata_all.
Qed.

Lemma respects_process_image_all has_exiftool img :
  respects R (process_image tool has_exiftool img).
Proof.
  apply respects_process_image; [| |done].
  - intros out. apply respects_convert_step_all.
  - intros out. apply respects_metadata_step_all.
Qed.

Lemma respects_main_loop_all has_exiftool image_files :
  respects R (main_loop tool has_exiftool image_files).
Proof. apply respects_for_each. intros; apply respects_process_image_all. Qed.

End AllPrimitives.

End Functions.

End Respects.


Global Instance same_counters_preorder : PreOrder same_counters.
Proof.
  split; [by intros st|].
  intros st1 st2 st3 [H1 H2] [H3 H4]. split; congruence.
Qed.

Global Instance same_metadata_count_preorder : PreOrder same_metadata_count.
Proof. split; [by intros st|]. intros st1 st2 st3 H1 H2. congruence. Qed.

Global Instance trace_grows_preorder : PreOrder trace_grows.
Proof.
  split; [intros st; unfold trace_grows; reflexivity|].
  intros st1 st2 st3 H1 H2. unfold trace_grows in *.
  etrans; [exact H1 | exact H2].
Qed.

Global Instance keeps_preorder I : PreOrder (keeps I).
Proof.
  split; [intros st H; exact H|]. intros st1 st2 st3 H1 H2 H. auto.
Qed.

Section Primitives.

Context (tool : Tool).

Lemma run_same_counters cmd : respects same_counters (subprocess_run tool cmd).
Proof. intros st. run_cases tool; done. Qed.

Lemma unlink_same_counters path : respects same_counters (unlink path).
Proof. intros st. unfold unlink. by case_bool_decide. Qed.

Lemma run_trace_grows cmd : respects trace_grows (subprocess_run tool cmd).
Proof.
  intros st. unfold trace_grows. run_cases tool; by apply prefix_app_r.
Qed.

Lemma unlink_trace_grows path : respects trace_grows (unlink path).
Proof.
  intros st. unfold unlink, trace_grows. by case_bool_decide.
Qed.

Lemma incr_success_trace_grows : respects trace_grows incr_successful_conversions.
Proof. intros st. unfold trace_grows. done. Qed.

Lemma incr_metadata_trace_grows : respects trace_grows incr_metadata_preserved.
Proof. intros st. unfold trace_grows. done. Qed.

(** A property of the trace is kept as soon as every event the computation
    may append satisfies it. *)
Lemma run_keeps_events (P : Event → Prop) cmd :
  (∀ o, P (cmd, o)) →
  respects (keeps (λ st, Forall P (st_trace st))) (subprocess_run tool cmd).
Proof.
  intros HP st Hst. run_cases tool; apply Forall_app; split; auto.
Qed.

Lemma unlink_keeps_events (P : Event → Prop) path :
  respects (keeps (λ st, Forall P (st_trace st))) (unlink path).
Proof. intros st Hst. unfold unlink. by case_bool_decide. Qed.

Lemma copy_metadata_same_counters src dst :
  respects same_counters (copy_metadata tool src dst).
Proof. apply respects_copy_metadata; try apply _; apply run_same_counters. Qed.

Lemma convert_step_same_counters img out :
  respects same_counters (convert_step tool img out).
Proof.
  apply respects_convert_step; try apply _;
    auto using run_same_counters, unlink_same_counters.
  apply respects_convert_heic_to_jpeg; try apply _;
    auto using run_same_counters.
Qed.

(** One iteration of the main loop, spelled out: the handlers swallow every
    exception, and the counters move only when the body runs to its end. *)
Lemma process_image_unfold has_exiftool img st :
  let out := get_unique_output_path (st_fs st) img output_dir in
  process_image tool has_exiftool img st =
    (Ret tt,
     match convert_step tool img out st with
     | (Raise _, st1) => st1
     | (Ret _, st1) =>
         match metadata_step tool has_exiftool img out st1 with
         | (Raise _, st2) => st2
         | (Ret _, st2) => (incr_successful_conversions st2).2
         end
     end).
Proof.
  intros out. unfold process_image, reserve, job_body, bind, try_except.
  fold out. destruct (convert_step tool img out st) as [[[]|e] st1].
  - destruct (metadata_step tool has_exiftool img out st1) as [[[]|e] st2];
      [done|]. by destruct e.
  - by destruct e.
Qed.

Lemma metadata_step_unfold has_exiftool img out st :
  metadata_step tool has_exiftool img out st =
    if has_exiftool then
      match copy_metadata tool img out st with
      | (Ret true, st1) => (Ret tt, (incr_metadata_preserved st1).2)
      | (Ret false, st1) => (Ret tt, st1)
      | (Raise e, st1) => (Raise e, st1)
      end
    else (Ret tt, st).
Proof.
  unfold metadata_step, bind. destruct has_exiftool; [|done].
  by destruct (copy_metadata tool img out st) as [[[]|e] st1].
Qed.

(** What one iteration does to the two counters. *)
Lemma process_image_counters has_exiftool img st :
  let st' := (process_image tool has_exiftool img st).2 in
  same_counters st st'
  ∨ (successful_conversions st' = successful_conversions st + 1
     ∧ metadata_preserved st' = metadata_preserved st)
  ∨ (has_exiftool = true
     ∧ successful_conversions st' = successful_conversions st + 1
     ∧ metadata_preserved st' = metadata_preserved st + 1).
Proof.
  intros st'. subst st'. rewrite process_image_unfold. simpl.
  set (out := get_unique_output_path _ _ _).
  pose proof (convert_step_same_counters img out st) as [Hs1 Hm1].
  destruct (convert_step tool img out st) as [[[]|e] st1]; simpl in *;
    [|by left].
  rewrite metadata_step_unfold. destruct has_exiftool.
  - pose proof (copy_metadata_same_counters img out st1) as [Hs2 Hm2].
    destruct (copy_metadata tool img out st1) as [[[]|e] st2]; simpl in *.
    + right; right. split; [done|]. split; congruence.
    + right; left. split; congruence.
    + left. split; congruence.
  - right; left. simpl. split; congruence.
Qed.

End Primitives.

(** ** The main loop *)

Section MainLoop.

Context (tool : Tool).

Lemma check_exiftool_unfold st :
  check_exiftool tool st =
    let r := tool exiftool_ver_cmd (st_fs st) (st_trace st) in
    (Ret (bool_decide (r.1 = Exited 0)),
     mkState r.2 (st_trace st ++ [(exiftool_ver_cmd, r.1)])
       (successful_conversions st) (metadata_preserved st)).
Proof.
  unfold check_exiftool, try_except, bind. run_cases tool.
  - subst. done.
  - rewrite bool_decide_eq_false_2; [done|]. by intros [= ->].
  - done.
Qed.

Lemma process_image_Ret has_exiftool img st :
  (process_image tool has_exiftool img st).1 = Ret tt.
Proof. by rewrite process_image_unfold. Qed.

Lemma main_loop_cons has_exiftool img rest st :
  main_loop tool has_exiftool (img :: rest) st =
    main_loop tool has_exiftool rest (process_image tool has_exiftool img st).2.
Proof.
  unfold main_loop. simpl. unfold bind at 1.
  pose proof (process_image_Ret has_exiftool img st) as H.
  by destruct (process_image tool has_exiftool img st) as [[[]|e] st1].
Qed.

Lemma main_loop_Ret has_exiftool image_files st :
  (main_loop tool has_exiftool image_files st).1 = Ret tt.
Proof.
  revert st. induction image_files as [|img rest IH]; intros st; [done|].
  rewrite main_loop_cons. apply IH.
Qed.

Lemma main_loop_app has_exiftool l1 l2 st :
  main_loop tool has_exiftool (l1 ++ l2) st =
    main_loop tool has_exiftool l2 (main_loop tool has_exiftool l1 st).2.
Proof.
  revert st. induction l1 as [|img rest IH]; intros st; [done|].
  simpl. rewrite !main_loop_cons. apply IH.
Qed.

Lemma main_loop_counters has_exiftool image_files st :
  let st' := (main_loop tool has_exiftool image_files st).2 in
  ∃ a b, successful_conversions st' = successful_conversions st + a
         ∧ metadata_preserved st' = metadata_preserved st + b
         ∧ b ≤ a ≤ List.length image_files.
Proof.
  revert st. induction image_files as [|img rest IH]; intros st; simpl.
  - exists 0, 0. lia.
  - rewrite main_loop_cons.
    destruct (IH (process_image tool has_exiftool img st).2)
      as (a & b & Ha & Hb & Hle).
    destruct (process_image_counters tool has_exiftool img st)
      as [[Hs Hm]|[[Hs Hm]|(_ & Hs & Hm)]].
    + exists a, b. lia.
    + exists (S a), b. lia.
    + exists (S a), (S b). lia.
Qed.

Lemma startup_unfold st :
  startup tool st = check_exiftool tool (makedirs output_dir st).2.
Proof. done. Qed.

Lemma main_unfold entries fs0 :
  let r := tool exiftool_ver_cmd ({[output_dir]} ∪ fs0) [] in
  let has_exiftool := bool_decide (r.1 = Exited 0) in
  let st := mkState r.2 [(exiftool_ver_cmd, r.1)] 0 0 in
  startup tool (initial_state fs0) = (Ret has_exiftool, st)
  ∧ main tool entries (initial_state fs0) =
      report has_exiftool (discover entries)
        (main_loop tool has_exiftool (discover entries) st).2.
Proof.
  intros r has_exiftool st.
  assert (startup tool (initial_state fs0) = (Ret has_exiftool, st)) as Hstart.
  { by rewrite startup_unfold, check_exiftool_unfold. }
  split; [done|]. unfold main. rewrite (bind_Ret _ _ _ _ _ Hstart).
  pose proof (main_loop_Ret has_exiftool (discover entries) st) as Hloop.
  destruct (main_loop tool has_exiftool (discover entries) st)
    as [[[]|e] st'] eqn:E; [|done].
  by rewrite (bind_Ret _ _ _ _ _ E).
Qed.

(** [after_jobs] steps from one job boundary to the next by one iteration
    of the loop. *)
Lemma after_jobs_succ entries fs0 k img :
  discover entries !! k = Some img →
  ∃ has_exiftool,
    (startup tool (initial_state fs0)).1 = Ret has_exiftool
    ∧ after_jobs tool entries fs0 (S k) =
        (process_image tool has_exiftool img (after_jobs tool entries fs0 k)).2.
Proof.
  intros Hk. destruct (main_unfold entries fs0) as [Hstart _].
  eexists. split; [by rewrite Hstart|].
  unfold after_jobs. rewrite Hstart.
  rewrite (take_S_r _ _ _ Hk), main_loop_app, main_loop_cons. done.
Qed.

End MainLoop.

(** C10 (as amended). At every job boundary of a run, that is with any
    number [k] of iterations of the main loop complete, and in the final
    summary, the counters satisfy
    [0 ≤ metadata_preserved ≤ successful_conversions ≤ total candidates]
    (and [successful_conversions ≤ k]). *)
Theorem C10_counters_ordered_at_job_boundaries :
  ∀ (tool : Tool) (entries : list string) (fs0 : gset string) (k : nat),
    let total := List.length (discover entries) in
    let st := after_jobs tool entries fs0 k in
    (0 ≤ metadata_preserved st
     ∧ metadata_preserved st ≤ successful_conversions st
     ∧ successful_conversions st ≤ k
     ∧ successful_conversions st ≤ total)
    ∧ ∃ s, main tool entries (initial_state fs0)
             = (Ret s, after_jobs tool entries fs0 total)
           ∧ total_images s = total
           ∧ 0 ≤ with_metadata s
           ∧ with_metadata s ≤ converted s
           ∧ converted s ≤ total_images s.
Proof.
  intros tool entries fs0 k total st.
  destruct (main_unfold tool entries fs0) as [Hstart Hmain].
  assert (∀ n, let st := after_jobs tool entries fs0 n in
               metadata_preserved st ≤ successful_conversions st
               ∧ successful_conversions st ≤ n
               ∧ successful_conversions st ≤ total) as Hall.
  { intros n. unfold after_jobs. rewrite Hstart.
    match goal with
    | |- context [main_loop tool ?h ?l ?s] =>
        destruct (main_loop_counters tool h l s) as (a & b & -> & -> & Hb & Ha)
    end.
    rewrite length_take in Ha. subst total. simpl. lia. }
  split; [destruct (Hall k) as (? & ? & ?); subst st; lia|].
  eexists. split.
  - rewrite Hmain. unfold report, after_jobs. rewrite Hstart.
    subst total. rewrite firstn_all. reflexivity.
  - simpl. destruct (Hall total) as (H1 & H2 & H3).
    unfold after_jobs in H1, H2, H3. rewrite Hstart in H1, H2, H3.
    subst total. rewrite firstn_all in H1, H2, H3. simpl in *. lia.
Qed.

(** C10 (counterexample). One candidate [z.jpg], every tool working: on
    reaching line 149 of the only iteration, [metadata_preserved] is already
    1 while [successful_conversions] is still 0. *)
Lemma C10_counters_out_of_order_within_a_job :
  let st0 := after_jobs all_tools_work ["z.jpg"] ∅ 0 in
  let out := get_unique_output_path (st_fs st0) "z.jpg" output_dir in
  let mid :=
    ((convert_step all_tools_work "z.jpg" out ;;
      metadata_step all_tools_work true "z.jpg" out) st0).2 in
  job_body all_tools_work true "z.jpg" out st0 = incr_successful_conversions mid
  ∧ successful_conversions mid < metadata_preserved mid.
Proof. vm_compute. split; [reflexivity | lia]. Qed.

(** ** The trace of a job *)

Section Traces.

Context (tool : Tool).

Lemma run_trace cmd st :
  st_trace (subprocess_run tool cmd st).2 =
    st_trace st ++ [(cmd, (tool cmd (st_fs st) (st_trace st)).1)].
Proof. run_cases tool; done. Qed.

Lemma main_loop_trace_grows has_exiftool image_files :
  respects trace_grows (main_loop tool has_exiftool image_files).
Proof.
  apply respects_main_loop_all; try apply _;
    auto using run_trace_grows, unlink_trace_grows,
      incr_success_trace_grows, incr_metadata_trace_grows.
Qed.

Lemma first_cmd_attempts img out : attempts img (first_cmd img out).
Proof.
  unfold first_cmd, attempts. destruct (is_heic img); [by left|].
  right. by exists out.
Qed.

Lemma convert_heic_to_jpeg_after_sips heic jpeg st :
  trace_grows (subprocess_run tool (sips_cmd heic jpeg) st).2
    (convert_heic_to_jpeg tool heic jpeg st).2.
Proof.
  unfold convert_heic_to_jpeg.
  etrans; [|apply (respects_after_try trace_grows)].
  - apply (respects_after_bind trace_grows). intros _.
    apply (respects_bind trace_grows).
    + apply (respects_check_exiftool trace_grows), run_trace_grows.
    + intros b.
      apply (respects_bind trace_grows); [|intros; apply (respects_ret trace_grows)].
      destruct b; [|apply (respects_ret trace_grows)].
      apply (respects_bind trace_grows); [|intros; apply (respects_ret trace_grows)].
      apply (respects_copy_metadata trace_grows); apply run_trace_grows.
  - repeat constructor. intros; apply (respects_ret trace_grows).
Qed.

Lemma convert_step_first_event img out st :
  let cmd := first_cmd img out in
  ∃ l, st_trace (convert_step tool img out st).2 =
         st_trace st ++ (cmd, (tool cmd (st_fs st) (st_trace st)).1) :: l.
Proof.
  intros cmd. subst cmd. unfold first_cmd, convert_step.
  destruct (is_heic img); [|exists []; apply run_trace].
  match goal with
  | |- context [bind ?m ?k st] =>
      assert (trace_grows (m st).2 (bind m k st).2) as Hrest
  end.
  { apply (respects_after_bind trace_grows). intros b.
    apply (respects_bind trace_grows).
    - destruct (negb b); [apply (respects_raise trace_grows) | apply (respects_ret trace_grows)].
    - intros _. apply (respects_bind trace_grows).
      + apply run_trace_grows.
      + intros _. apply unlink_trace_grows. }
  pose proof (convert_heic_to_jpeg_after_sips img (temp_jpg_path img) st)
    as Hheic.
  destruct (transitivity Hheic Hrest) as [l Hl].
  exists l. rewrite Hl, run_trace. by rewrite <-app_assoc.
Qed.

(** Every iteration invokes the command that starts its conversion. *)
Lemma process_image_attempts has_exiftool img st :
  ∃ l, st_trace (process_image tool has_exiftool img st).2 = st_trace st ++ l
       ∧ ∃ ev, ev ∈ l ∧ attempts img ev.1.
Proof.
  set (out := get_unique_output_path (st_fs st) img output_dir).
  destruct (convert_step_first_event img out st) as [l1 Hl1].
  assert (trace_grows (convert_step tool img out st).2
            (process_image tool has_exiftool img st).2) as [l2 Hl2].
  { unfold process_image. unfold bind at 1. simpl. fold out. unfold job_body.
    etrans; [|apply (respects_after_try trace_grows)].
    - apply (respects_after_bind trace_grows). intros _.
      apply (respects_bind trace_grows).
      + apply (respects_metadata_step trace_grows).
        * intros _. apply (respects_copy_metadata trace_grows); apply run_trace_grows.
        * intros _. apply incr_metadata_trace_grows.
      + intros _. apply incr_success_trace_grows.
    - repeat constructor; intros; apply (respects_ret trace_grows). }
  eexists. split.
  - rewrite Hl2, Hl1, <-app_assoc. reflexivity.
  - eexists. split; [apply elem_of_app; left; apply list_elem_of_here|].
    apply first_cmd_attempts.
Qed.

Lemma main_loop_attempts has_exiftool image_files st :
  ∃ l, st_trace (main_loop tool has_exiftool image_files st).2 = st_trace st ++ l
       ∧ ∀ img, img ∈ image_files → ∃ ev, ev ∈ l ∧ attempts img ev.1.
Proof.
  revert st. induction image_files as [|img rest IH]; intros st.
  - exists []. split; [by rewrite app_nil_r|]. intros img Himg. by inv Himg.
  - rewrite main_loop_cons.
    destruct (process_image_attempts has_exiftool img st)
      as (l1 & Hl1 & ev1 & Hev1 & Hatt1).
    destruct (IH (process_image tool has_exiftool img st).2)
      as (l2 & Hl2 & Hrest).
    exists (l1 ++ l2). split; [by rewrite Hl2, Hl1, <-app_assoc|].
    intros img' Himg'. apply elem_of_cons in Himg' as [->|Himg'].
    + exists ev1. split; [apply elem_of_app; by left | done].
    + destruct (Hrest _ Himg') as (ev & Hev & Hatt).
      exists ev. split; [apply elem_of_app; by right | done].
Qed.

End Traces.


(** C9. When the conversion step of a job has succeeded and exiftool is
    available, a metadata pass that exits with a non-zero code (the all-tags
    pass, or the date-tags pass after it) still lets the job count as
    converted: [successful_conversions] is incremented,
    [metadata_preserved] is not, and the script does nothing after the
    failing pass (the file system is the one that pass left, and the pass is
    the last invocation of the job). *)
Theorem C9_metadata_failure_keeps_conversion :
  ∀ (tool : Tool) (img : string) (st st1 : State)
    (cmd : list string) (rc : Z) (fs' : gset string),
    let out := get_unique_output_path (st_fs st) img output_dir in
    convert_step tool img out st = (Ret tt, st1) →
    metadata_pass_fails tool img out st1 cmd rc fs' →
    let st' := (process_image tool true img st).2 in
    successful_conversions st' = successful_conversions st + 1
    ∧ metadata_preserved st' = metadata_preserved st
    ∧ st_fs st' = fs'
    ∧ list.last (st_trace st') = Some (cmd, Exited rc).
Proof.
  intros tool img st st1 cmd rc fs' out Hconv (Hrc & Hfail) st'. subst st'.
  rewrite process_image_unfold. cbv zeta. fold out. rewrite Hconv.
  pose proof (convert_step_same_counters tool img out st) as Hc1.
  rewrite Hconv in Hc1. destruct Hc1 as [Hs Hm]. simpl in Hs, Hm.
  rewrite metadata_step_unfold.
  unfold copy_metadata, try_except, bind, subprocess_run.
  destruct Hfail as [(-> & Htool)|(-> & fs1 & Htool1 & Htool2)].
  - rewrite Htool. rewrite decide_False by done. simpl.
    rewrite last_snoc. repeat split; congruence.
  - rewrite Htool1. simpl. rewrite Htool2. rewrite decide_False by done. simpl.
    rewrite last_snoc. repeat split; congruence.
Qed.

(** C9 at a concrete job: [z.jpg] is converted, then the all-tags pass
    exits with code 1. *)
Lemma C9_metadata_failure_keeps_conversion_witness :
  let st := initial_state ∅ in
  let st' := (process_image copy_fails true "z.jpg" st).2 in
  successful_conversions st' = 1
  ∧ metadata_preserved st' = 0
  ∧ st_fs st' = {["webp_output/z.webp"]}
  ∧ list.last (st_trace st')
    = Some (copy_all_cmd "z.jpg" "webp_output/z.webp", Exited 1).
Proof.
  apply (C9_metadata_failure_keeps_conversion copy_fails "z.jpg"
           (initial_state ∅)
           (mkState {["webp_output/z.webp"]}
              [(cwebp_cmd "z.jpg" "webp_output/z.webp", Exited 0)] 0 0)
           (copy_all_cmd "z.jpg" "webp_output/z.webp") 1
           {["webp_output/z.webp"]}).
  - vm_compute. reflexivity.
  - split; [done|]. left. split; vm_compute; reflexivity.
Defined.

(** ** The intermediate file of the two-step path *)

(** When the conversion of a HEIC candidate returns normally, its last act
    was to delete the intermediate file. *)
Lemma convert_step_heic_removes_temp tool img out st st1 :
  is_heic img = true →
  convert_step tool img out st = (Ret tt, st1) →
  temp_jpg_path img ∉ st_fs st1.
Proof.
  intros Hheic. unfold convert_step. rewrite Hheic. unfold bind.
  destruct (convert_heic_to_jpeg tool img (temp_jpg_path img) st)
    as [[b|e] s1]; [|done].
  destruct (negb b); simpl; [done|].
  destruct (subprocess_run tool _ s1) as [[[]|e] s2]; [|done].
  unfold unlink. case_bool_decide; [|done].
  intros [= Hst1]. subst st1. simpl.
  apply not_elem_of_difference. right. by apply elem_of_singleton.
Qed.

(** C1 (the code at the failing input). One candidate [y.heic]; the decoder
    succeeds and creates the intermediate file, the encoder exits with
    code 1. The encoder's failure is the last thing that happens: line 134
    is skipped and the intermediate file is still there when the script
    ends, with no conversion counted. *)
Theorem C1_intermediate_file_left_after_failed_compression :
  let final := (main cwebp_fails ["y.heic"] (initial_state ∅)).2 in
  temp_jpg_path "y.heic" = "webp_output/y_temp.jpg"
  ∧ "webp_output/y_temp.jpg" ∈ st_fs final
  ∧ successful_conversions final = 0
  ∧ list.last (st_trace final)
    = Some (cwebp_cmd "webp_output/y_temp.jpg" "webp_output/y.webp", Exited 1).
Proof.
  split; [vm_compute; reflexivity|].
  split; [apply (bool_decide_unpack _); vm_compute; exact I|].
  split; vm_compute; reflexivity.
Qed.

(** ** Reservations *)

Lemma reservations_free tool has_exiftool image_files st :
  Forall (λ r, r.2 ∉ r.1) (reservations tool has_exiftool image_files st).
Proof.
  revert st. induction image_files as [|img rest IH]; intros st; simpl.
  - constructor.
  - constructor; [apply get_unique_output_path_free | apply IH].
Qed.

Lemma reservations_length tool has_exiftool image_files st :
  List.length (reservations tool has_exiftool image_files st)
  = List.length image_files.
Proof.
  revert st. induction image_files as [|img rest IH]; intros st; simpl;
    [reflexivity|]. by rewrite IH.
Qed.

(** A path that exists when a later job is named is not the path of that
    job. *)
Lemma reservations_pairwise tool has_exiftool image_files st :
  ∀ i j fsi pi fsj pj,
    i < j →
    reservations tool has_exiftool image_files st !! i = Some (fsi, pi) →
    reservations tool has_exiftool image_files st !! j = Some (fsj, pj) →
    pi ∈ fsj → pi ≠ pj.
Proof.
  intros i j fsi pi fsj pj _ _ Hj Hin ->.
  pose proof (reservations_free tool has_exiftool image_files st) as Hfree.
  by apply (proj1 (Forall_lookup _ _) Hfree _ _ Hj).
Qed.

(** C2 (as amended). In every run, and from whatever state the loop
    starts, one path is assigned per job and it does not exist in the file
    system at the moment it is assigned; hence a later job is never assigned
    the path of an earlier job that exists when the later job is named.
    Nothing is assumed about the other jobs of the run. *)
Theorem C2_reserved_paths_distinct_while_files_exist :
  ∀ (tool : Tool) (has_exiftool : bool) (image_files : list string) (st : State),
    let res := reservations tool has_exiftool image_files st in
    List.length res = List.length image_files
    ∧ Forall (λ r, r.2 ∉ r.1) res
    ∧ (∀ i j fsi pi fsj pj,
         i < j → res !! i = Some (fsi, pi) → res !! j = Some (fsj, pj) →
         pi ∈ fsj → pi ≠ pj)
    ∧ (∀ entries fs0,
         let run := run_reservations tool entries fs0 in
         List.length run = List.length (discover entries)
         ∧ Forall (λ r, r.2 ∉ r.1) run
         ∧ ∀ i j fsi pi fsj pj,
             i < j → run !! i = Some (fsi, pi) → run !! j = Some (fsj, pj) →
             pi ∈ fsj → pi ≠ pj).
Proof.
  intros tool has_exiftool image_files st res.
  split; [apply reservations_length|].
  split; [apply reservations_free|].
  split; [apply reservations_pairwise|].
  intros entries fs0 run. subst run. unfold run_reservations.
  destruct (main_unfold tool entries fs0) as [-> _].
  split; [apply reservations_length|].
  split; [apply reservations_free | apply reservations_pairwise].
Qed.

(** C2 at a concrete run: [photo.jpg] and [photo.png], every tool working;
    the first output exists when the second job is named, and the two
    paths differ. *)
Lemma C2_reserved_paths_distinct_witness :
  let run := run_reservations all_tools_work ["photo.jpg"; "photo.png"] ∅ in
  run !! 0 = Some ({[output_dir]}, "webp_output/photo.webp")
  ∧ run !! 1 = Some ({["webp_output/photo.webp"]} ∪ {[output_dir]},
                     "webp_output/photo_1.webp")
  ∧ "webp_output/photo.webp" ≠ "webp_output/photo_1.webp".
Proof.
  assert (run_reservations all_tools_work ["photo.jpg"; "photo.png"] ∅
          = [({[output_dir]}, "webp_output/photo.webp");
             ({["webp_output/photo.webp"]} ∪ {[output_dir]},
              "webp_output/photo_1.webp")]) as Hrun.
  { vm_compute. reflexivity. }
  cbv zeta. rewrite Hrun.
  split; [reflexivity|]. split; [reflexivity|].
  destruct (C2_reserved_paths_distinct_while_files_exist all_tools_work true
              [] (initial_state ∅)) as (_ & _ & _ & Hruns).
  destruct (Hruns ["photo.jpg"; "photo.png"] ∅) as (_ & _ & Hpair).
  rewrite Hrun in Hpair.
  apply (Hpair 0 1 {[output_dir]} "webp_output/photo.webp"
           ({["webp_output/photo.webp"]} ∪ {[output_dir]})
           "webp_output/photo_1.webp"); [lia|reflexivity|reflexivity|].
  apply elem_of_union_l. by apply elem_of_singleton.
Defined.

(** The specification's scenario of two sources with one stem. *)
Example reservations_two_sources_one_stem :
  (run_reservations all_tools_work ["photo.jpg"; "photo.png"] ∅).*2
  = ["webp_output/photo.webp"; "webp_output/photo_1.webp"].
Proof. vm_compute. reflexivity. Qed.

(** C2 (counterexample). [photo.jpg] and [photo.png], the encoder failing
    on both: the first job leaves no file at its path, and the second job is
    assigned the same path. *)
Lemma C2_same_path_assigned_twice :
  discover ["photo.jpg"; "photo.png"] = ["photo.jpg"; "photo.png"]
  ∧ (run_reservations cwebp_fails ["photo.jpg"; "photo.png"] ∅).*2
    = ["webp_output/photo.webp"; "webp_output/photo.webp"].
Proof. split; vm_compute; reflexivity. Qed.

(** ** Probes and decodes *)

Global Instance probe_balance_preorder : PreOrder probe_balance.
Proof.
  split; [intros st; unfold probe_balance; lia|].
  intros st1 st2 st3. unfold probe_balance. lia.
Qed.

Lemma count_probes_snoc l ev :
  count_probes (l ++ [ev]) = count_probes l + (if is_probe ev then 1 else 0).
Proof.
  unfold count_probes. rewrite List.filter_app, length_app. simpl.
  by destruct (is_probe ev).
Qed.

Lemma count_decodes_ok_snoc l ev :
  count_decodes_ok (l ++ [ev])
  = count_decodes_ok l + (if is_decode_ok ev then 1 else 0).
Proof.
  unfold count_decodes_ok. rewrite List.filter_app, length_app. simpl.
  by destruct (is_decode_ok ev).
Qed.

Lemma count_probes_cons ev l :
  count_probes (ev :: l) = (if is_probe ev then 1 else 0) + count_probes l.
Proof. unfold count_probes. simpl. by destruct (is_probe ev). Qed.

Lemma count_decodes_ok_cons ev l :
  count_decodes_ok (ev :: l)
  = (if is_decode_ok ev then 1 else 0) + count_decodes_ok l.
Proof. unfold count_decodes_ok. simpl. by destruct (is_decode_ok ev). Qed.

Section ProbeBalance.

Context (tool : Tool).

Lemma convert_heic_to_jpeg_unfold heic jpeg st :
  convert_heic_to_jpeg tool heic jpeg st =
    match subprocess_run tool (sips_cmd heic jpeg) st with
    | (Ret _, st1) =>
        match check_exiftool tool st1 with
        | (Ret true, st2) =>
            match copy_metadata tool heic jpeg st2 with
            | (Ret _, st3) => (Ret true, st3)
            | (Raise e, st3) =>
                if is_CalledProcessError e then (Ret false, st3)
                else (Raise e, st3)
            end
        | (Ret false, st2) => (Ret true, st2)
        | (Raise e, st2) =>
            if is_CalledProcessError e then (Ret false, st2) else (Raise e, st2)
        end
    | (Raise e, st1) =>
        if is_CalledProcessError e then (Ret false, st1) else (Raise e, st1)
    end.
Proof.
  unfold convert_heic_to_jpeg, try_except. unfold bind at 1.
  destruct (subprocess_run tool (sips_cmd heic jpeg) st) as [[[]|e] st1];
    [|by destruct e].
  unfold bind at 1.
  destruct (check_exiftool tool st1) as [[[]|e] st2]; [| |by destruct e].
  - unfold bind.
    destruct (copy_metadata tool heic jpeg st2) as [[b|e] st3]; [done|].
    by destruct e.
  - done.
Qed.

Lemma run_probe_balance cmd :
  cmd ≠ exiftool_ver_cmd → hd "" cmd ≠ "sips" →
  respects probe_balance (subprocess_run tool cmd).
Proof.
  intros Hver Hsips st. unfold probe_balance.
  rewrite run_trace, count_probes_snoc, count_decodes_ok_snoc.
  unfold is_probe, is_decode_ok. simpl.
  rewrite !bool_decide_eq_false_2 by done. simpl. lia.
Qed.

Lemma copy_metadata_probe_balance src dst :
  respects probe_balance (copy_metadata tool src dst).
Proof.
  apply (respects_copy_metadata probe_balance);
    by apply run_probe_balance.
Qed.

Lemma is_probe_sips heic jpeg o : is_probe (sips_cmd heic jpeg, o) = false.
Proof. done. Qed.

Lemma is_decode_ok_sips heic jpeg o :
  is_decode_ok (sips_cmd heic jpeg, o) = bool_decide (o = Exited 0).
Proof. done. Qed.

Lemma is_probe_ver o : is_probe (exiftool_ver_cmd, o) = true.
Proof. done. Qed.

Lemma is_decode_ok_ver o : is_decode_ok (exiftool_ver_cmd, o) = false.
Proof. done. Qed.

Lemma convert_heic_to_jpeg_probe_balance heic jpeg :
  respects probe_balance (convert_heic_to_jpeg tool heic jpeg).
Proof.
  intros st. rewrite convert_heic_to_jpeg_unfold.
  unfold subprocess_run at 1.
  destruct (tool (sips_cmd heic jpeg) (st_fs st) (st_trace st)) as [o fs1].
  destruct o as [rc|]; [destruct (decide (rc = 0%Z)) as [->|Hrc]|].
  - rewrite check_exiftool_unfold. cbv zeta.
    match goal with
    | |- context [tool exiftool_ver_cmd ?f ?t] =>
        destruct (tool exiftool_ver_cmd f t) as [o2 fs2]
    end.
    simpl. case_bool_decide.
    + match goal with
      | |- context [copy_metadata tool heic jpeg ?s] =>
          pose proof (copy_metadata_probe_balance heic jpeg s) as Hcopy;
          destruct (copy_metadata tool heic jpeg s) as [[b|e] st3]
      end.
      all: unfold probe_balance in *; simpl in *.
      all: rewrite !count_probes_snoc, !count_decodes_ok_snoc in Hcopy.
      all: rewrite is_probe_sips, is_decode_ok_sips, is_probe_ver,
             is_decode_ok_ver in Hcopy; simpl in Hcopy.
      * lia.
      * destruct (is_CalledProcessError e); simpl; lia.
    + unfold probe_balance. simpl.
      rewrite !count_probes_snoc, !count_decodes_ok_snoc.
      rewrite is_probe_sips, is_decode_ok_sips, is_probe_ver, is_decode_ok_ver.
      simpl. lia.
  - unfold probe_balance. simpl.
    rewrite count_probes_snoc, count_decodes_ok_snoc.
    rewrite is_probe_sips, is_decode_ok_sips.
    rewrite bool_decide_eq_false_2 by congruence. lia.
  - unfold probe_balance. simpl.
    rewrite count_probes_snoc, count_decodes_ok_snoc.
    rewrite is_probe_sips, is_decode_ok_sips. simpl. lia.
Qed.

Lemma unlink_probe_balance path : respects probe_balance (unlink path).
Proof.
  intros st. unfold unlink, probe_balance. case_bool_decide; simpl; lia.
Qed.

Lemma process_image_probe_balance has_exiftool img :
  respects probe_balance (process_image tool has_exiftool img).
Proof.
  apply (respects_process_image probe_balance).
  - intros out. apply (respects_convert_step probe_balance).
    + apply convert_heic_to_jpeg_probe_balance.
    + apply unlink_probe_balance.
    + intros src. by apply run_probe_balance.
  - intros out. apply (respects_metadata_step probe_balance).
    + intros _. apply copy_metadata_probe_balance.
    + intros _ st. unfold probe_balance. simpl. lia.
  - intros st. unfold probe_balance. simpl. lia.
Qed.

Lemma main_loop_probe_balance has_exiftool image_files :
  respects probe_balance (main_loop tool has_exiftool image_files).
Proof.
  apply (respects_for_each probe_balance).
  intros; apply process_image_probe_balance.
Qed.

End ProbeBalance.



(** ** Where tags are copied to *)

Section PathEndings.

Lemma endswith_cons c s lit :
  Text.endswith (String c s) lit
  = (String.eqb (String c s) lit || Text.endswith s lit).
Proof. done. Qed.

Lemma endswith_spec s lit :
  Text.endswith s lit = true ↔ ∃ p, s = p +:+ lit.
Proof.
  split.
  - induction s as [|c s IH].
    + destruct lit as [|d lit]; simpl; [intros _; by exists ""|done].
    + rewrite endswith_cons. intros [H%String.eqb_eq|H]%orb_true_iff.
      * by exists "".
      * destruct (IH H) as [p ->]. by exists (String c p).
  - intros [p ->]. induction p as [|c p IH].
    + destruct lit; simpl; rewrite ?String.eqb_refl, ?Ascii.eqb_refl; done.
    + rewrite app_cons, endswith_cons, IH. apply orb_true_r.
Qed.

Lemma endswith_temp_not_webp x :
  Text.endswith (x +:+ "_temp.jpg") ".webp" = false.
Proof.
  induction x as [|c x IH]; [done|].
  rewrite app_cons, endswith_cons, IH, orb_false_r.
  apply String.eqb_neq. intros H. apply (f_equal String.length) in H.
  simpl in H. rewrite length_app_str in H. simpl in H. lia.
Qed.

Lemma temp_jpg_path_not_webp img :
  Text.endswith (temp_jpg_path img) ".webp" = false.
Proof.
  unfold temp_jpg_path, Pathlib.joinpath.
  rewrite <-!app_assoc_str. apply endswith_temp_not_webp.
Qed.

Lemma get_unique_output_path_webp fs img out_dir :
  Text.endswith (get_unique_output_path fs img out_dir) ".webp" = true.
Proof.
  apply endswith_spec.
  destruct (get_unique_output_path_spec fs img out_dir) as (_ & Hplain & Hnum & _).
  destruct (decide (plain_path out_dir (Pathlib.stem img) ∈ fs)) as [Hin|Hout].
  - destruct (Hnum Hin) as (k & _ & -> & _).
    unfold numbered_path, Pathlib.joinpath. rewrite <-!app_assoc_str. by eexists.
  - rewrite (Hplain Hout).
    unfold plain_path, Pathlib.joinpath. rewrite <-!app_assoc_str. by eexists.
Qed.

End PathEndings.

Section NoPropagation.

Context (tool : Tool).

Lemma spares_webp_other cmd o :
  hd "" (tl cmd) ≠ "-TagsFromFile" → spares_webp (cmd, o).
Proof.
  intros Hcmd dst [src [H|H]]; simpl in H; subst cmd; by destruct Hcmd.
Qed.

Lemma spares_webp_temp src img o :
  spares_webp (copy_all_cmd src (temp_jpg_path img), o)
  ∧ spares_webp (copy_dates_cmd src (temp_jpg_path img), o).
Proof.
  split; intros dst [src' [H|H]]; simpl in H;
    unfold copy_all_cmd, copy_dates_cmd in H; simpl in H;
    try discriminate H; injection H as _ <-; apply temp_jpg_path_not_webp.
Qed.

Abbreviation spared := (keeps (λ st, Forall spares_webp (st_trace st))).

Lemma process_image_spares_webp img :
  respects spared (process_image tool false img).
Proof.
  apply (respects_process_image spared).
  - intros out. apply (respects_convert_step spared).
    + apply (respects_convert_heic_to_jpeg spared).
      * apply run_keeps_events. intros o. by apply spares_webp_other.
      * apply run_keeps_events. intros o. by apply spares_webp_other.
      * apply run_keeps_events. intros o. apply spares_webp_temp.
      * apply run_keeps_events. intros o. apply spares_webp_temp.
    + apply unlink_keeps_events.
    + intros src. apply run_keeps_events. intros o. by apply spares_webp_other.
  - intros out. by apply (respects_metadata_step spared).
  - intros st Hst. exact Hst.
Qed.

Lemma process_image_no_metadata img :
  respects same_metadata_count (process_image tool false img).
Proof.
  assert (∀ cmd, respects same_metadata_count (subprocess_run tool cmd)) as Hrun.
  { intros cmd st. apply (run_same_counters tool cmd st). }
  assert (∀ path, respects same_metadata_count (unlink path)) as Hunlink.
  { intros path st. apply (unlink_same_counters path st). }
  apply (respects_process_image same_metadata_count).
  - intros out. apply (respects_convert_step same_metadata_count); [|done..].
    by apply (respects_convert_heic_to_jpeg same_metadata_count).
  - intros out. by apply (respects_metadata_step same_metadata_count).
  - intros st. reflexivity.
Qed.

(** When exiftool stays unavailable, no tags are copied at all. *)
Section StaysUnavailable.

Hypothesis Hnever : ∀ fs tr, (tool exiftool_ver_cmd fs tr).1 ≠ Exited 0.

Abbreviation copy_free :=
  (keeps (λ st, Forall (λ ev, ∀ dst, ¬ copies_tags_to dst ev.1) (st_trace st))).

Lemma no_copy_other cmd (o : Outcome) dst :
  hd "" (tl cmd) ≠ "-TagsFromFile" → ¬ copies_tags_to dst (cmd, o).1.
Proof.
  intros Hcmd [src [H|H]]; simpl in H; subst cmd; by destruct Hcmd.
Qed.

Lemma convert_heic_to_jpeg_copy_free heic jpeg :
  respects copy_free (convert_heic_to_jpeg tool heic jpeg).
Proof.
  intros st Hst. rewrite convert_heic_to_jpeg_unfold.
  unfold subprocess_run at 1.
  destruct (tool (sips_cmd heic jpeg) (st_fs st) (st_trace st)) as [o fs1].
  assert (Forall (λ ev, ∀ dst, ¬ copies_tags_to dst ev.1)
            (st_trace st ++ [(sips_cmd heic jpeg, o)])) as Hsips.
  { apply Forall_app. split; [done|]. repeat constructor.
    intros dst. by apply no_copy_other. }
  destruct o as [rc|]; [destruct (decide (rc = 0%Z)) as [->|Hrc]|]; [|done..].
  rewrite check_exiftool_unfold. cbv zeta.
  rewrite bool_decide_eq_false_2 by apply Hnever. simpl.
  apply Forall_app. split; [done|]. repeat constructor.
  intros dst. by apply no_copy_other.
Qed.

Lemma process_image_copy_free img :
  respects copy_free (process_image tool false img).
Proof.
  apply (respects_process_image copy_free).
  - intros out. apply (respects_convert_step copy_free).
    + apply convert_heic_to_jpeg_copy_free.
    + apply unlink_keeps_events.
    + intros src. apply run_keeps_events. intros o dst. by apply no_copy_other.
  - intros out. by apply (respects_metadata_step copy_free).
  - intros st Hst. exact Hst.
Qed.

End StaysUnavailable.

End NoPropagation.

(** C4. When the probe at startup reports exiftool unavailable, the run ends
    with [metadata_preserved = 0] whatever the conversions did, and no tag
    copy is ever directed at a path the output namer can return: the
    metadata step of the main loop is skipped for every job. When moreover
    exiftool stays unavailable for the whole run, no tag copy is invoked at
    all. *)
Theorem C4_unavailable_probe_skips_propagation :
  ∀ (tool : Tool) (entries : list string) (fs0 : gset string) (s : Summary),
    let final := main tool entries (initial_state fs0) in
    final.1 = Ret s →
    has_exiftool_flag s = false →
    with_metadata s = 0
    ∧ metadata_preserved final.2 = 0
    ∧ (∀ ev fs img,
         ev ∈ st_trace final.2 →
         ¬ copies_tags_to (get_unique_output_path fs img output_dir) ev.1)
    ∧ ((∀ fs tr, (tool exiftool_ver_cmd fs tr).1 ≠ Exited 0) →
       ∀ ev dst, ev ∈ st_trace final.2 → ¬ copies_tags_to dst ev.1).
Proof.
  intros tool entries fs0 s final. subst final.
  destruct (main_unfold tool entries fs0) as [_ ->].
  set (r := tool exiftool_ver_cmd _ _).
  set (st := mkState _ _ _ _).
  unfold report. simpl. intros [= <-]. simpl. intros Hflag. rewrite Hflag.
  pose proof (respects_for_each same_metadata_count (discover entries) _
                (process_image_no_metadata tool) st) as Hcount.
  pose proof (respects_for_each (keeps (λ st, Forall spares_webp (st_trace st)))
                (discover entries) _ (process_image_spares_webp tool) st)
    as Hspared.
  fold (main_loop tool false (discover entries)) in Hcount, Hspared.
  split; [exact Hcount|]. split; [exact Hcount|]. split.
  - intros ev fs img Hev Hcopy.
    assert (Forall spares_webp (st_trace st)) as Hinit.
    { repeat constructor. by apply spares_webp_other. }
    apply Hspared in Hinit.
    pose proof (proj1 (Forall_forall _ _) Hinit ev Hev _ Hcopy) as Hends.
    by rewrite get_unique_output_path_webp in Hends.
  - intros Hnever ev dst Hev.
    pose proof (respects_for_each _ (discover entries) _
                  (process_image_copy_free tool Hnever) st) as Hfree.
    fold (main_loop tool false (discover entries)) in Hfree.
    assert (Forall (λ ev, ∀ dst, ¬ copies_tags_to dst ev.1) (st_trace st))
      as Hinit.
    { repeat constructor. intros dst'. by apply no_copy_other. }
    apply Hfree in Hinit.
    by apply (proj1 (Forall_forall _ _) Hinit ev Hev).
Qed.

(** C4 at a concrete run: one candidate [z.jpg], exiftool not installed.
    The conversion is counted, the metadata counter stays 0. *)
Lemma C4_unavailable_probe_witness :
  let final := main no_exiftool ["z.jpg"] (initial_state ∅) in
  final.1 = Ret (mkSummary 1 1 0 false)
  ∧ with_metadata (mkSummary 1 1 0 false) = 0
  ∧ metadata_preserved final.2 = 0
  ∧ (∀ ev fs img,
       ev ∈ st_trace final.2 →
       ¬ copies_tags_to (get_unique_output_path fs img output_dir) ev.1)
  ∧ ((∀ fs tr, (no_exiftool exiftool_ver_cmd fs tr).1 ≠ Exited 0) →
     ∀ ev dst, ev ∈ st_trace final.2 → ¬ copies_tags_to dst ev.1).
Proof.
  assert ((main no_exiftool ["z.jpg"] (initial_state ∅)).1
          = Ret (mkSummary 1 1 0 false)) as Hrun.
  { vm_compute. reflexivity. }
  split; [exact Hrun|].
  apply (C4_unavailable_probe_skips_propagation no_exiftool ["z.jpg"] ∅
           (mkSummary 1 1 0 false) Hrun).
  reflexivity.
Defined.

(** ** Discovery *)

Section Discovery.

Lemma elem_of_glob_star entries fmt name :
  name ∈ glob_star entries fmt ↔
  name ∈ entries ∧ ∃ prefix, name = prefix +:+ fmt.
Proof.
  unfold glob_star. rewrite !list_elem_of_In, List.filter_In.
  by rewrite endswith_spec.
Qed.

Lemma elem_of_discover entries name :
  name ∈ discover entries ↔
  name ∈ entries ∧ ∃ fmt prefix, fmt ∈ formats ∧ name = prefix +:+ fmt.
Proof.
  unfold discover. rewrite list_elem_of_In, List.in_flat_map. split.
  - intros (fmt & Hfmt & Hname).
    apply list_elem_of_In, elem_of_glob_star in Hname as [Hin [prefix ->]].
    split; [done|]. exists fmt, prefix. by rewrite list_elem_of_In.
  - intros (Hin & fmt & prefix & Hfmt & ->). exists fmt.
    split; [by apply list_elem_of_In|].
    apply list_elem_of_In, elem_of_glob_star. split; [done|by exists prefix].
Qed.

(** Two endings of one name: one of them is an ending of the other. *)
Lemma endswith_comparable name f1 f2 :
  Text.endswith name f1 = true → Text.endswith name f2 = true →
  Text.endswith f1 f2 = true ∨ Text.endswith f2 f1 = true.
Proof.
  induction name as [|c name IH].
  - destruct f1, f2; simpl; try done. by left.
  - rewrite !endswith_cons.
    intros [H1%String.eqb_eq|H1]%orb_true_iff [H2%String.eqb_eq|H2]%orb_true_iff.
    + subst f1 f2. left. rewrite endswith_cons, String.eqb_refl. done.
    + subst f1. left. rewrite endswith_cons, H2. apply orb_true_r.
    + subst f2. right. rewrite endswith_cons, H1. apply orb_true_r.
    + by apply IH.
Qed.

(** No listed extension is an ending of another one. *)
Lemma formats_antichain :
  Forall (λ f1, Forall (λ f2, Text.endswith f1 f2 = true → f1 = f2) formats)
    formats.
Proof. repeat constructor; vm_compute; congruence. Qed.

Lemma formats_NoDup : NoDup formats.
Proof. apply (bool_decide_unpack _). vm_compute. exact I. Qed.

Lemma NoDup_flat_map_glob_star entries fmts :
  NoDup entries → NoDup fmts →
  (∀ f1 f2, f1 ∈ fmts → f2 ∈ fmts → Text.endswith f1 f2 = true → f1 = f2) →
  NoDup (List.flat_map (glob_star entries) fmts).
Proof.
  intros Hentries Hfmts Hanti.
  induction Hfmts as [|fmt fmts Hfresh Hfmts IH]; simpl; [constructor|].
  apply NoDup_app. split; [|split].
  - unfold glob_star.
    by apply NoDup_ListNoDup, List.NoDup_filter, NoDup_ListNoDup.
  - intros name [_ [p1 Hp1]]%elem_of_glob_star Hrest.
    apply list_elem_of_In, List.in_flat_map in Hrest as (fmt' & Hfmt' & Hname).
    apply list_elem_of_In in Hfmt'.
    apply list_elem_of_In, elem_of_glob_star in Hname as [_ [p2 Hp2]].
    assert (Text.endswith name fmt = true) as H1 by (apply endswith_spec; eauto).
    assert (Text.endswith name fmt' = true) as H2 by (apply endswith_spec; eauto).
    apply Hfresh.
    destruct (endswith_comparable _ _ _ H1 H2) as [H|H].
    + rewrite (Hanti fmt fmt'); [done|by left|by right|done].
    + rewrite <-(Hanti fmt' fmt); [done|by right|by left|done].
  - apply IH. intros f1 f2 Hf1 Hf2. apply Hanti; by right.
Qed.

End Discovery.

(** C5. Discovery returns exactly the directory entries whose names end in
    one of the eight listed extensions, letter case included, each entry
    once: [a.jpeg] and [a.JPEG] are found, [a.Jpeg] is not. *)
Theorem C5_discover_selects_listed_extensions :
  ∀ (entries : list string),
    (∀ name,
       name ∈ discover entries ↔
       name ∈ entries ∧ ∃ fmt prefix, fmt ∈ formats ∧ name = prefix +:+ fmt)
    ∧ (NoDup entries → NoDup (discover entries))
    ∧ formats
      = [".jpg"; ".jpeg"; ".png"; ".heic"; ".HEIC"; ".JPG"; ".JPEG"; ".PNG"]
    ∧ discover ["a.jpeg"; "a.JPEG"; "a.Jpeg"] = ["a.jpeg"; "a.JPEG"].
Proof.
  intros entries. split; [apply elem_of_discover|]. split.
  - intros Hnd. apply NoDup_flat_map_glob_star; [done|apply formats_NoDup|].
    intros f1 f2 Hf1 Hf2.
    pose proof (proj1 (Forall_forall _ _) formats_antichain f1 Hf1) as H.
    by apply (proj1 (Forall_forall _ _) H f2).
  - split; [reflexivity|]. vm_compute. reflexivity.
Qed.

(** ** Stem and suffix of the candidates *)

Section StemAndSuffix.

Lemma rfind_app_last c p rest :
  Text.rfind c rest = None →
  Text.rfind c (p +:+ String c rest) = Some (String.length p).
Proof.
  intros Hrest. induction p as [|a p IH].
  - change ("" +:+ String c rest) with (String c rest). simpl.
    by rewrite Hrest, Ascii.eqb_refl.
  - rewrite app_cons. simpl. by rewrite IH.
Qed.

Lemma substring_all s : String.substring 0 (String.length s) s = s.
Proof. induction s as [|a s IH]; simpl; [done|by rewrite IH]. Qed.

Lemma substring_app_take p s :
  String.substring 0 (String.length p) (p +:+ s) = p.
Proof.
  induction p as [|a p IH].
  - by destruct s.
  - rewrite app_cons. simpl. by rewrite IH.
Qed.

Lemma substring_app_drop p s :
  String.substring (String.length p) (String.length s) (p +:+ s) = s.
Proof.
  induction p as [|a p IH].
  - apply substring_all.
  - rewrite app_cons. simpl. exact IH.
Qed.

(** A name with a non-empty part before its last dot and a non-empty part
    after it splits there. *)
Lemma split_at_last_dot p rest :
  p ≠ "" → rest ≠ "" → Text.rfind "." rest = None →
  Pathlib.suffix (p +:+ String "." rest) = String "." rest
  ∧ Pathlib.stem (p +:+ String "." rest) = p.
Proof.
  intros Hp Hrest Hdot.
  unfold Pathlib.suffix, Pathlib.stem, Pathlib.split_at_suffix.
  rewrite (rfind_app_last _ _ _ Hdot), length_app_str.
  assert (String.length p ≠ 0) by (by destruct p).
  assert (String.length rest ≠ 0) by (by destruct rest).
  destruct (0 <? String.length p) eqn:H1; [|apply Nat.ltb_ge in H1; lia].
  simpl String.length.
  destruct (String.length p <? String.length p + S (String.length rest) - 1)
    eqn:H2; [|apply Nat.ltb_ge in H2; lia].
  simpl. split; [|apply substring_app_take].
  replace (String.length p + S (String.length rest) - String.length p)
    with (String.length (String "." rest)) by (simpl; lia).
  apply substring_app_drop.
Qed.

(** A name that is nothing but a dot and an extension has no suffix. *)
Lemma no_split_at_leading_dot rest :
  Text.rfind "." rest = None →
  Pathlib.suffix (String "." rest) = ""
  ∧ Pathlib.stem (String "." rest) = String "." rest.
Proof.
  intros Hdot. unfold Pathlib.suffix, Pathlib.stem, Pathlib.split_at_suffix.
  simpl. by rewrite Hdot.
Qed.

End StemAndSuffix.

(** ** Routing *)

Section Routing.

Context (tool : Tool).

(** [copy_metadata] handles every [CalledProcessError] itself. *)
Lemma copy_metadata_Raise src dst st e st' :
  copy_metadata tool src dst st = (Raise e, st') →
  is_CalledProcessError e = false.
Proof.
  unfold copy_metadata, try_except, bind.
  destruct (subprocess_run tool (copy_all_cmd src dst) st) as [[[]|e1] st1] eqn:E1.
  - destruct (subprocess_run tool (copy_dates_cmd src dst) st1)
      as [[[]|e2] st2] eqn:E2; [done|].
    destruct e2; simpl; [done|..]; by intros [= <- _].
  - destruct e1; simpl; [done|..]; by intros [= <- _].
Qed.

(** The decoder exits with 0 and the helper returns: it returns [True]. *)
Lemma convert_heic_to_jpeg_Ret heic jpeg st b st1 :
  (tool (sips_cmd heic jpeg) (st_fs st) (st_trace st)).1 = Exited 0 →
  convert_heic_to_jpeg tool heic jpeg st = (Ret b, st1) → b = true.
Proof.
  intros Hok. rewrite convert_heic_to_jpeg_unfold. unfold subprocess_run at 1.
  destruct (tool (sips_cmd heic jpeg) (st_fs st) (st_trace st)) as [o fs1].
  simpl in Hok. subst o. simpl.
  rewrite check_exiftool_unfold. cbv zeta. case_bool_decide; [|by intros [= <- _]].
  match goal with
  | |- context [copy_metadata tool heic jpeg ?s] =>
      destruct (copy_metadata tool heic jpeg s) as [[b'|e] st3] eqn:E
  end; [by intros [= <- _]|].
  by rewrite (copy_metadata_Raise _ _ _ _ _ E).
Qed.

(** The decoder does not exit with 0: nothing else is invoked, and the
    conversion raises. *)
Lemma convert_step_decode_fails img out st :
  let temp := temp_jpg_path img in
  let decode := tool (sips_cmd img temp) (st_fs st) (st_trace st) in
  is_heic img = true → decode.1 ≠ Exited 0 →
  ∃ e, convert_step tool img out st =
         (Raise e,
          mkState decode.2 (st_trace st ++ [(sips_cmd img temp, decode.1)])
            (successful_conversions st) (metadata_preserved st)).
Proof.
  intros temp decode Hheic Hfail. subst decode.
  unfold convert_step. rewrite Hheic. fold temp. unfold bind at 1.
  rewrite convert_heic_to_jpeg_unfold. unfold subprocess_run at 1.
  destruct (tool (sips_cmd img temp) (st_fs st) (st_trace st)) as [o fs1].
  simpl in *. destruct o as [rc|]; [destruct (decide (rc = 0%Z)) as [->|]|].
  - done.
  - simpl. by eexists.
  - simpl. by eexists.
Qed.

End Routing.


(** The routing test on a few names. *)
Lemma C6_routing_examples :
  is_heic "a.heic" = true ∧ is_heic "a.HEIC" = true ∧ is_heic "a.HeIc" = true
  ∧ is_heic "a.jpg" = false ∧ is_heic "a.heic.png" = false
  ∧ is_heic ".heic" = false.
Proof. vm_compute. repeat split; reflexivity. Qed.

(** ** End-to-end scenarios of the specification *)

(** [x.png] alone, empty output directory: one output [webp_output/x.webp],
    one conversion counted. *)
Example scenario_single_png :
  let final := main all_tools_work ["x.png"] (initial_state ∅) in
  final.1 = Ret (mkSummary 1 1 1 true)
  ∧ elements (st_fs final.2) = ["webp_output/x.webp"; "webp_output"].
Proof. vm_compute. split; reflexivity. Qed.

(** [x.png] when [webp_output/x.webp] already exists: the new output is
    [webp_output/x_1.webp]. *)
Example scenario_existing_output :
  let final :=
    main all_tools_work ["x.png"] (initial_state {["webp_output/x.webp"]}) in
  list.last (st_trace final.2)
  = Some (copy_dates_cmd "x.png" "webp_output/x_1.webp", Exited 0).
Proof. vm_compute. reflexivity. Qed.

(** * Further properties of the script's functions *)

(** ** The helpers around exiftool and sips *)



Lemma copy_metadata_Raise_only tool src dst st e st' :
  copy_metadata tool src dst st = (Raise e, st') → e = FileNotFoundError.
Proof.
  unfold copy_metadata, try_except, bind, subprocess_run.
  destruct (tool (copy_all_cmd src dst) (st_fs st) (st_trace st)) as [o1 fs1].
  destruct o1 as [rc1|]; [destruct (decide (rc1 = 0%Z)) as [->|Hrc1]|]; simpl;
    [|done|by intros [= <- _]].
  destruct (tool (copy_dates_cmd src dst) fs1 _) as [o2 fs2].
  destruct o2 as [rc2|]; [destruct (decide (rc2 = 0%Z)) as [->|Hrc2]|]; simpl;
    [done|done|by intros [= <- _]].
Qed.

(** X3. [convert_heic_to_jpeg] (lines 65-79) returns [False] exactly when
    sips exits with a non-zero code, and then nothing else was invoked; a
    missing sips is not turned into [False]: [FileNotFoundError] leaves the
    function. After a decode that exited with 0 the function returns [True]
    whatever [copy_metadata] returned, so tags that could not be copied onto
    the JPEG are lost silently. *)
Theorem X3_convert_heic_to_jpeg_result :
  ∀ (tool : Tool) (heic jpeg : string) (st : State),
    let d := tool (sips_cmd heic jpeg) (st_fs st) (st_trace st) in
    let res := convert_heic_to_jpeg tool heic jpeg st in
    (res.1 = Ret false ↔ ∃ rc, rc ≠ 0%Z ∧ d.1 = Exited rc)
    ∧ (d.1 = NoExecutable → res.1 = Raise FileNotFoundError)
    ∧ (d.1 ≠ Exited 0 →
       st_trace res.2 = st_trace st ++ [(sips_cmd heic jpeg, d.1)]
       ∧ st_fs res.2 = d.2)
    ∧ (d.1 = Exited 0 → res.1 = Ret true ∨ res.1 = Raise FileNotFoundError)
    ∧ (∀ st1 st2 copied st3,
         subprocess_run tool (sips_cmd heic jpeg) st = (Ret tt, st1) →
         check_exiftool tool st1 = (Ret true, st2) →
         copy_metadata tool heic jpeg st2 = (Ret copied, st3) →
         res = (Ret true, st3)).
Proof.
  intros tool heic jpeg st d res. subst res d.
  rewrite convert_heic_to_jpeg_unfold.
  split; [|split; [|split; [|split]]].
  - unfold subprocess_run at 1.
    destruct (tool (sips_cmd heic jpeg) (st_fs st) (st_trace st)) as [o fs1].
    destruct o as [rc|]; [destruct (decide (rc = 0%Z)) as [->|Hrc]|]; simpl.
    + rewrite check_exiftool_unfold. cbv zeta. split.
      * case_bool_decide; [|done].
        match goal with
        | |- context [copy_metadata tool heic jpeg ?s] =>
            destruct (copy_metadata tool heic jpeg s) as [[b|e] st3] eqn:E
        end; [done|].
        by rewrite (copy_metadata_Raise _ _ _ _ _ _ E).
      * intros (rc & Hrc & [= <-]). done.
    + split; [|done]. intros _. by exists rc.
    + split; [done|]. intros (rc & _ & [=]).
  - unfold subprocess_run at 1.
    destruct (tool (sips_cmd heic jpeg) (st_fs st) (st_trace st)) as [o fs1].
    simpl. by intros ->.
  - unfold subprocess_run.
    destruct (tool (sips_cmd heic jpeg) (st_fs st) (st_trace st)) as [o fs1].
    simpl. intros Hfail.
    destruct o as [rc|]; [destruct (decide (rc = 0%Z)) as [->|Hrc]|]; done.
  - unfold subprocess_run.
    destruct (tool (sips_cmd heic jpeg) (st_fs st) (st_trace st)) as [o fs1].
    simpl. intros ->. simpl. rewrite !check_exiftool_unfold. cbv zeta.
    case_bool_decide; [|by left].
    match goal with
    | |- context [copy_metadata tool heic jpeg ?s] =>
        pose proof (X := copy_metadata_Raise_only tool heic jpeg s);
        destruct (copy_metadata tool heic jpeg s) as [[b|e] st3]
    end; [by left|].
    rewrite (X _ _ eq_refl). by right.
  - intros st1 st2 copied st3 -> -> ->. done.
Qed.

(** ** What the script deletes *)

Section MoreComposition.

Context (R : relation State) `{!PreOrder R}.

Lemma respects_for_each_in {A} (xs : list A) body :
  (∀ x, x ∈ xs → respects R (body x)) → respects R (for_each xs body).
Proof.
  induction xs as [|x xs IH]; intros Hbody; simpl.
  - by apply respects_ret.
  - apply respects_bind; [done| |].
    + apply Hbody. by left.
    + intros _. apply IH. intros y Hy. apply Hbody. by right.
Qed.

Lemma respects_convert_step_cases tool img out :
  (is_heic img = true →
   respects R (convert_heic_to_jpeg tool img (temp_jpg_path img))
   ∧ respects R (subprocess_run tool (cwebp_cmd (temp_jpg_path img) out))
   ∧ respects R (unlink (temp_jpg_path img))) →
  (is_heic img = false → respects R (subprocess_run tool (cwebp_cmd img out))) →
  respects R (convert_step tool img out).
Proof.
  intros Hheic Hdirect. unfold convert_step.
  destruct (is_heic img); [|by apply Hdirect].
  destruct (Hheic eq_refl) as (Hdecode & Hcwebp & Hunlink).
  apply respects_bind; [done|done|intros b].
  apply respects_bind; [done| |].
  { destruct (negb b); [by apply respects_raise | by apply respects_ret]. }
  intros _. apply respects_bind; [done|done|intros _; done].
Qed.

End MoreComposition.

Section Deletion.

Context (tool : Tool) (Hkeep : tools_keep_files tool) (p : string).

Abbreviation stays := (keeps (file_exists p)).

Lemma run_keeps_file cmd : respects stays (subprocess_run tool cmd).
Proof.
  intros st Hp. unfold file_exists in *.
  pose proof (Hkeep cmd (st_fs st) (st_trace st) p Hp) as Hin.
  unfold subprocess_run.
  destruct (tool cmd (st_fs st) (st_trace st)) as [o fs1]. simpl in Hin.
  destruct o as [rc|]; [destruct (decide (rc = 0%Z))|]; done.
Qed.

Lemma unlink_keeps_file path : p ≠ path → respects stays (unlink path).
Proof.
  intros Hne st Hp. unfold unlink, file_exists in *.
  case_bool_decide; simpl; [|done].
  apply elem_of_difference. split; [done|]. by intros ?%elem_of_singleton.
Qed.

Lemma copy_metadata_keeps_file src dst :
  respects stays (copy_metadata tool src dst).
Proof. apply (respects_copy_metadata stays); apply run_keeps_file. Qed.

Lemma process_image_keeps_file has_exiftool img :
  (is_heic img = true → p ≠ temp_jpg_path img) →
  respects stays (process_image tool has_exiftool img).
Proof.
  intros Hne. apply (respects_process_image stays).
  - intros out. apply (respects_convert_step_cases stays).
    + intros Hheic. split; [|split].
      * apply (respects_convert_heic_to_jpeg stays); apply run_keeps_file.
      * apply run_keeps_file.
      * apply unlink_keeps_file. by apply Hne.
    + intros _. apply run_keeps_file.
  - intros out. apply (respects_metadata_step stays).
    + intros _. apply copy_metadata_keeps_file.
    + intros _ st Hp. exact Hp.
  - intros st Hp. exact Hp.
Qed.

Lemma main_loop_keeps_file has_exiftool image_files :
  (∀ img, img ∈ image_files → is_heic img = true → p ≠ temp_jpg_path img) →
  respects stays (main_loop tool has_exiftool image_files).
Proof.
  intros Hne. apply (respects_for_each_in stays). intros img Himg.
  apply process_image_keeps_file. by apply Hne.
Qed.

End Deletion.

Lemma sample_tool_keeps_files ver copy sips cwebp :
  tools_keep_files (sample_tool ver copy sips cwebp).
Proof.
  intros cmd fs tr. unfold sample_tool.
  repeat case_decide; simpl; try done; apply union_subseteq_r.
Qed.

(** X4. With external programs that never remove a file, the only paths a
    run can delete are the intermediate files [webp_output/<stem>_temp.jpg]
    of its HEIC candidates (line 134): every other path that exists when the
    script starts, a source image for instance, still exists when it
    ends. *)
Theorem X4_only_intermediate_files_are_deleted :
  ∀ (tool : Tool) (entries : list string) (fs0 : gset string) (p : string),
    tools_keep_files tool →
    p ∈ fs0 →
    (∀ img, img ∈ discover entries → is_heic img = true →
            p ≠ temp_jpg_path img) →
    p ∈ st_fs (main tool entries (initial_state fs0)).2.
Proof.
  intros tool entries fs0 p Hkeep Hp Hne.
  destruct (main_unfold tool entries fs0) as [_ ->].
  set (r := tool exiftool_ver_cmd _ _).
  unfold report. simpl.
  apply (main_loop_keeps_file tool Hkeep p _ _ Hne).
  unfold file_exists. simpl. subst r. apply Hkeep.
  apply elem_of_union. by right.
Qed.

(** X4 at a concrete run: the source [y.heic] survives its conversion. *)
Lemma X4_source_file_survives_witness :
  "y.heic" ∈ st_fs (main all_tools_work ["y.heic"] (initial_state {["y.heic"]})).2.
Proof.
  apply (X4_only_intermediate_files_are_deleted all_tools_work ["y.heic"]
           {["y.heic"]} "y.heic").
  - apply sample_tool_keeps_files.
  - by apply elem_of_singleton.
  - intros img Himg _.
    assert (discover ["y.heic"] = ["y.heic"]) as Hd by (vm_compute; reflexivity).
    rewrite Hd in Himg. apply list_elem_of_singleton in Himg as ->.
    vm_compute. discriminate.
Defined.

(** ** The outputs of the conversions that count *)

Section ConvertedOutputs.

Context (tool : Tool).
Context (Hkeep : tools_keep_files tool) (Hcreates : cwebp_creates_output tool).

Lemma run_Ret cmd st st1 :
  subprocess_run tool cmd st = (Ret tt, st1) →
  (tool cmd (st_fs st) (st_trace st)).1 = Exited 0
  ∧ st_fs st1 = (tool cmd (st_fs st) (st_trace st)).2.
Proof.
  unfold subprocess_run.
  destruct (tool cmd (st_fs st) (st_trace st)) as [o fs1].
  destruct o as [rc|]; [destruct (decide (rc = 0%Z)) as [->|]|]; simpl;
    [|done..].
  by intros [= <-].
Qed.

Lemma cwebp_Ret src out st st1 :
  subprocess_run tool (cwebp_cmd src out) st = (Ret tt, st1) → out ∈ st_fs st1.
Proof.
  intros [Hok ->]%run_Ret. by apply Hcreates.
Qed.

Lemma webp_is_no_temp q img :
  Text.endswith q ".webp" = true → q ≠ temp_jpg_path img.
Proof.
  intros Hq ->. by rewrite temp_jpg_path_not_webp in Hq.
Qed.

(** A conversion that returns normally leaves its output on disk. *)
Lemma convert_step_Ret_output img out st st1 :
  Text.endswith out ".webp" = true →
  convert_step tool img out st = (Ret tt, st1) → out ∈ st_fs st1.
Proof.
  intros Hout. unfold convert_step.
  destruct (is_heic img); [|apply cwebp_Ret].
  unfold bind.
  destruct (convert_heic_to_jpeg tool img (temp_jpg_path img) st)
    as [[b|e] s1]; [|done].
  destruct (negb b); simpl; [done|].
  destruct (subprocess_run tool _ s1) as [[[]|e] s2] eqn:E; [|done].
  apply cwebp_Ret in E.
  unfold unlink. case_bool_decide; [|done].
  intros [= <-]. simpl. apply elem_of_difference. split; [done|].
  intros ?%elem_of_singleton. by eapply webp_is_no_temp.
Qed.

(** A job that is counted leaves its output on disk. *)
Lemma counted_job_output has_exiftool img st :
  let out := get_unique_output_path (st_fs st) img output_dir in
  let st' := (process_image tool has_exiftool img st).2 in
  successful_conversions st < successful_conversions st' →
  out ∈ st_fs st'.
Proof.
  intros out st'. subst st'. rewrite process_image_unfold. cbv zeta. fold out.
  pose proof (convert_step_same_counters tool img out st) as [Hs _].
  destruct (convert_step tool img out st) as [[[]|e] st1] eqn:E;
    simpl in *; [|lia].
  intros _.
  apply convert_step_Ret_output in E; [|apply get_unique_output_path_webp].
  assert (respects (keeps (file_exists out))
            (metadata_step tool has_exiftool img out)) as Hmeta.
  { apply (respects_metadata_step (keeps (file_exists out))).
    - intros _. by apply copy_metadata_keeps_file.
    - intros _ s Hs'. exact Hs'. }
  specialize (Hmeta st1 E). unfold file_exists in Hmeta.
  by destruct (metadata_step tool has_exiftool img out st1) as [[[]|e] st2].
Qed.

Lemma converted_outputs_spec has_exiftool image_files st :
  let outs := converted_outputs tool has_exiftool image_files st in
  let final := (main_loop tool has_exiftool image_files st).2 in
  NoDup outs
  ∧ (∀ q, q ∈ outs →
          (q ∉ st_fs st) ∧ q ∈ st_fs final ∧ Text.endswith q ".webp" = true)
  ∧ successful_conversions final
    = successful_conversions st + List.length outs.
Proof.
  revert st. induction image_files as [|img rest IH]; intros st.
  { simpl. split; [constructor|]. split; [|lia]. intros q Hq. by inv Hq. }
  cbv zeta. rewrite main_loop_cons. simpl.
  set (out := get_unique_output_path (st_fs st) img output_dir).
  set (st' := (process_image tool has_exiftool img st).2).
  destruct (IH st') as (Hnd & Hrest & Hcount).
  assert (∀ q, q ∈ converted_outputs tool has_exiftool rest st' → q ∉ st_fs st)
    as Hfresh.
  { intros q Hq Hin. destruct (Hrest q Hq) as (Hnot & _ & Hwebp).
    apply Hnot.
    apply (process_image_keeps_file tool Hkeep q has_exiftool img); [|done].
    intros _. by apply webp_is_no_temp. }
  pose proof (process_image_counters tool has_exiftool img st) as Hjob.
  fold st' in Hjob.
  destruct (successful_conversions st <? successful_conversions st')%nat
    eqn:Hlt.
  - apply Nat.ltb_lt in Hlt.
    pose proof (counted_job_output has_exiftool img st Hlt) as Hout.
    fold out st' in Hout. simpl.
    split; [|split].
    + constructor; [|done]. intros Hin. by destruct (Hrest out Hin) as (Hnot & _).
    + intros q [->|Hq]%elem_of_cons.
      * split; [apply get_unique_output_path_free|].
        split; [|apply get_unique_output_path_webp].
        apply (main_loop_keeps_file tool Hkeep out has_exiftool rest); [|done].
        intros img' _ _. apply webp_is_no_temp, get_unique_output_path_webp.
      * destruct (Hrest q Hq) as (_ & Hfinal & Hwebp). by split; [apply Hfresh|].
    + rewrite Hcount.
      destruct Hjob as [[Hs _]|[[Hs _]|(_ & Hs & _)]]; lia.
  - apply Nat.ltb_ge in Hlt. simpl.
    split; [done|]. split.
    + intros q Hq. destruct (Hrest q Hq) as (_ & Hfinal & Hwebp).
      by split; [apply Hfresh|].
    + rewrite Hcount.
      destruct Hjob as [[Hs _]|[[Hs _]|(_ & Hs & _)]]; lia.
Qed.

End ConvertedOutputs.

Lemma sample_tool_creates_output ver copy sips cwebp :
  cwebp_creates_output (sample_tool ver copy sips cwebp).
Proof.
  intros src out fs tr. unfold sample_tool. simpl.
  intros ->. rewrite decide_True by done. apply elem_of_union_l.
  by apply elem_of_singleton.
Qed.

(** X5. With external programs that never remove a file and an encoder
    that has created its output whenever it exits with 0, the jobs counted
    in [successful_conversions] have pairwise different output paths, none
    of which existed when the loop started and all of which exist when it
    ends; and [successful_conversions] grows by exactly their number. So no
    counted conversion overwrites an existing file or another conversion's
    output. *)
Theorem X5_counted_outputs_distinct_and_present :
  ∀ (tool : Tool) (has_exiftool : bool) (image_files : list string)
    (st : State),
    tools_keep_files tool →
    cwebp_creates_output tool →
    let outs := converted_outputs tool has_exiftool image_files st in
    let final := (main_loop tool has_exiftool image_files st).2 in
    NoDup outs
    ∧ (∀ q, q ∈ outs → (q ∉ st_fs st) ∧ q ∈ st_fs final)
    ∧ successful_conversions final
      = successful_conversions st + List.length outs.
Proof.
  intros tool has_exiftool image_files st Hkeep Hcreates outs final.
  destruct (converted_outputs_spec tool Hkeep Hcreates has_exiftool
              image_files st) as (Hnd & Hall & Hcount).
  split; [done|]. split; [|done].
  intros q Hq. by destruct (Hall q Hq) as (? & ? & _).
Qed.

(** X5 at a concrete loop: [photo.jpg] and [photo.png], every tool
    working. *)
Lemma X5_counted_outputs_witness :
  let st := mkState {[output_dir]} [(exiftool_ver_cmd, Exited 0)] 0 0 in
  let outs :=
    converted_outputs all_tools_work true ["photo.jpg"; "photo.png"] st in
  let final := (main_loop all_tools_work true ["photo.jpg"; "photo.png"] st).2 in
  outs = ["webp_output/photo.webp"; "webp_output/photo_1.webp"]
  ∧ NoDup outs
  ∧ (∀ q, q ∈ outs → (q ∉ st_fs st) ∧ q ∈ st_fs final)
  ∧ successful_conversions final = 0 + List.length outs.
Proof.
  split; [vm_compute; reflexivity|].
  apply (X5_counted_outputs_distinct_and_present all_tools_work true
           ["photo.jpg"; "photo.png"]
           (mkState {[output_dir]} [(exiftool_ver_cmd, Exited 0)] 0 0)).
  - apply sample_tool_keeps_files.
  - apply sample_tool_creates_output.
Defined.

(** ** How many candidates are found *)

Section DiscoveryCount.

Lemma flat_map_glob_star_nil fmts : List.flat_map (glob_star []) fmts = [].
Proof. induction fmts as [|f fmts IH]; simpl; [done|by rewrite IH]. Qed.

Lemma glob_star_cons x l f :
  glob_star (x :: l) f
  = (if Text.endswith x f then [x] else []) ++ glob_star l f.
Proof. unfold glob_star. simpl. by destruct (Text.endswith x f). Qed.

(** One more directory entry adds itself once when it matches and nothing
    otherwise. *)
Lemma flat_map_glob_star_cons x l fmts :
  NoDup fmts →
  (∀ f1 f2, f1 ∈ fmts → f2 ∈ fmts → Text.endswith f1 f2 = true → f1 = f2) →
  List.flat_map (glob_star (x :: l)) fmts
  ≡ₚ (if existsb (Text.endswith x) fmts then [x] else [])
     ++ List.flat_map (glob_star l) fmts.
Proof.
  intros Hfmts Hanti.
  induction Hfmts as [|f fmts Hfresh Hfmts IH]; [done|].
  cbn [List.flat_map existsb].
  rewrite IH by (intros f1 f2 Hf1 Hf2; apply Hanti; by right).
  rewrite glob_star_cons.
  destruct (Text.endswith x f) eqn:Hf; cbn [orb app].
  - destruct (existsb (Text.endswith x) fmts) eqn:Hex; [|done].
    exfalso. apply List.existsb_exists in Hex as (f' & Hf'%list_elem_of_In & Hxf').
    apply Hfresh.
    destruct (endswith_comparable _ _ _ Hf Hxf') as [H|H].
    + rewrite (Hanti f f'); [done|by left|by right|done].
    + rewrite <-(Hanti f' f); [done|by right|by left|done].
  - apply Permutation_app_swap_app.
Qed.

Lemma discover_cons x l :
  discover (x :: l)
  ≡ₚ (if has_listed_extension x then [x] else []) ++ discover l.
Proof.
  unfold discover, has_listed_extension.
  apply flat_map_glob_star_cons; [apply formats_NoDup|].
  intros f1 f2 Hf1 Hf2.
  pose proof (proj1 (Forall_forall _ _) formats_antichain f1 Hf1) as H.
  by apply (proj1 (Forall_forall _ _) H f2).
Qed.

End DiscoveryCount.

(** X6. The candidates found (lines 104-107) are, up to order, exactly the
    directory entries whose name ends in a listed extension, each as often
    as the directory lists it: no entry is found by two of the eight
    patterns. So the number reported by "Found N images" is the number of
    matching entries and never exceeds the number of entries. *)
Theorem X6_discover_counts_each_match_once :
  ∀ (entries : list string),
    discover entries ≡ₚ List.filter has_listed_extension entries
    ∧ List.length (discover entries)
      = List.length (List.filter has_listed_extension entries)
    ∧ List.length (discover entries) ≤ List.length entries.
Proof.
  intros entries.
  assert (discover entries ≡ₚ List.filter has_listed_extension entries) as Hperm.
  { induction entries as [|x l IH].
    - unfold discover. by rewrite flat_map_glob_star_nil.
    - rewrite discover_cons, IH. simpl.
      by destruct (has_listed_extension x). }
  split; [done|]. rewrite (Permutation_length Hperm).
  split; [done|]. apply List.filter_length_le.
Qed.

(** X7. For a candidate named [prefix + ext] with [ext] one of the listed
    extensions and [prefix] not empty, the stem is [prefix] and the suffix
    is [ext], so it takes the two-step path exactly when [ext] is [.heic]
    or [.HEIC]. A directory entry whose whole name is a listed extension (a
    hidden file such as [.heic]) is found by discovery too, but has no
    suffix: its stem is the whole name and it is never sent to the decoder,
    whatever its extension. *)
Theorem X7_stem_suffix_and_route_of_candidates :
  ∀ (prefix fmt : string),
    fmt ∈ formats →
    let name := prefix +:+ fmt in
    (prefix ≠ "" →
     Pathlib.suffix name = fmt
     ∧ Pathlib.stem name = prefix
     ∧ is_heic name = bool_decide (fmt = ".heic" ∨ fmt = ".HEIC"))
    ∧ (prefix = "" →
       fmt ∈ discover [fmt]
       ∧ Pathlib.suffix name = ""
       ∧ Pathlib.stem name = fmt
       ∧ is_heic name = false).
Proof.
  intros prefix fmt Hfmt name. subst name.
  assert (∃ rest, fmt = String "." rest ∧ rest ≠ ""
                  ∧ Text.rfind "." rest = None
                  ∧ (Text.lower fmt =? ".heic")%string
                    = bool_decide (fmt = ".heic" ∨ fmt = ".HEIC")
                  ∧ fmt ∈ discover [fmt]) as (rest & -> & Hrest & Hdot & Hlow & Hdisc).
  { apply list_elem_of_In in Hfmt. simpl in Hfmt.
    repeat (destruct Hfmt as [<-|Hfmt];
            [eexists; split; [reflexivity|];
             split; [done|]; split; [done|]; split; [by vm_compute|];
             apply list_elem_of_In; vm_compute; tauto|]).
    done. }
  split.
  - intros Hp. destruct (split_at_last_dot prefix rest Hp Hrest Hdot) as [Hs Ht].
    split; [done|]. split; [done|]. unfold is_heic. by rewrite Hs.
  - intros ->. change ("" +:+ String "." rest) with (String "." rest).
    destruct (no_split_at_leading_dot rest Hdot) as [Hs Ht].
    split; [done|]. split; [done|]. split; [done|].
    unfold is_heic. by rewrite Hs.
Qed.

(** X7 at two names: a visible and a hidden HEIC file. *)
Lemma X7_stem_suffix_and_route_witness :
  (Pathlib.suffix "IMG_1.HEIC" = ".HEIC"
   ∧ Pathlib.stem "IMG_1.HEIC" = "IMG_1"
   ∧ is_heic "IMG_1.HEIC" = true)
  ∧ (".heic" ∈ discover [".heic"]
     ∧ Pathlib.suffix ".heic" = ""
     ∧ Pathlib.stem ".heic" = ".heic"
     ∧ is_heic ".heic" = false).
Proof.
  assert (".HEIC" ∈ formats) as H1 by (apply list_elem_of_In; vm_compute; tauto).
  assert (".heic" ∈ formats) as H2 by (apply list_elem_of_In; vm_compute; tauto).
  split.
  - apply (proj1 (X7_stem_suffix_and_route_of_candidates "IMG_1" ".HEIC" H1)).
    done.
  - apply (proj2 (X7_stem_suffix_and_route_of_candidates "" ".heic" H2)).
    done.
Defined.

(** ** What the script invokes *)

Section Invocations.

Context (tool : Tool).

Abbreviation as_expected :=
  (keeps (λ st, Forall expected_command (st_trace st))).

Lemma output_path_in_output_dir fs img :
  ∃ name, get_unique_output_path fs img output_dir
          = Pathlib.joinpath output_dir name.
Proof.
  destruct (get_unique_output_path_spec fs img output_dir)
    as (_ & Hplain & Hnum & _).
  destruct (decide (plain_path output_dir (Pathlib.stem img) ∈ fs)) as [Hin|Hout].
  - destruct (Hnum Hin) as (k & _ & -> & _). by eexists.
  - rewrite (Hplain Hout). by eexists.
Qed.

Lemma run_as_expected cmd :
  cmd = exiftool_ver_cmd ∨ writes_into_output_dir cmd →
  respects as_expected (subprocess_run tool cmd).
Proof. intros Hcmd. apply run_keeps_events. intros o. exact Hcmd. Qed.

Lemma process_image_as_expected has_exiftool img :
  respects as_expected (process_image tool has_exiftool img).
Proof.
  intros st Hst. rewrite process_image_unfold. cbv zeta.
  destruct (output_path_in_output_dir (st_fs st) img) as [name ->].
  set (out := Pathlib.joinpath output_dir name).
  assert (∀ src, respects as_expected (copy_metadata tool src out)) as Hcopy.
  { intros src. apply (respects_copy_metadata as_expected);
      apply run_as_expected; right; exists src, name; cbv zeta;
      first [by left | by right; left]. }
  assert (respects as_expected (convert_step tool img out)) as Hconvert.
  { apply (respects_convert_step as_expected).
    - apply (respects_convert_heic_to_jpeg as_expected);
        apply run_as_expected; [|by left|..]; right;
        exists img, (Pathlib.stem img +:+ "_temp.jpg"); cbv zeta;
        first [by left | by right; left | by right; right; left].
    - apply unlink_keeps_events.
    - intros src. apply run_as_expected. right. exists src, name. cbv zeta.
      by right; right; right. }
  assert (respects as_expected (metadata_step tool has_exiftool img out))
    as Hmeta.
  { apply (respects_metadata_step as_expected); [done|].
    intros _ s Hs. exact Hs. }
  specialize (Hconvert st Hst).
  destruct (convert_step tool img out st) as [[[]|e] st1]; [|done].
  specialize (Hmeta st1 Hconvert).
  by destruct (metadata_step tool has_exiftool img out st1) as [[[]|e] st2].
Qed.

End Invocations.



(** ** Jobs that are counted, and jobs that are not *)

(** X9. When the conversion step of a job has succeeded, exiftool is
    available and both metadata passes exit with 0, the job is counted in
    both counters, and the date pass is the last thing the job does. With
    C9 this makes [metadata_preserved] count exactly the converted jobs
    whose two passes both exited with 0. *)
Theorem X9_both_passes_ok_counts_metadata :
  ∀ (tool : Tool) (img : string) (st st1 : State) (fs1 fs2 : gset string),
    let out := get_unique_output_path (st_fs st) img output_dir in
    convert_step tool img out st = (Ret tt, st1) →
    tool (copy_all_cmd img out) (st_fs st1) (st_trace st1) = (Exited 0, fs1) →
    tool (copy_dates_cmd img out) fs1
      (st_trace st1 ++ [(copy_all_cmd img out, Exited 0)]) = (Exited 0, fs2) →
    let st' := (process_image tool true img st).2 in
    successful_conversions st' = successful_conversions st + 1
    ∧ metadata_preserved st' = metadata_preserved st + 1
    ∧ st_fs st' = fs2
    ∧ list.last (st_trace st') = Some (copy_dates_cmd img out, Exited 0).
Proof.
  intros tool img st st1 fs1 fs2 out Hconv Hall Hdates st'. subst st'.
  rewrite process_image_unfold. cbv zeta. fold out. rewrite Hconv.
  pose proof (convert_step_same_counters tool img out st) as Hc1.
  rewrite Hconv in Hc1. destruct Hc1 as [Hs Hm]. simpl in Hs, Hm.
  rewrite metadata_step_unfold.
  unfold copy_metadata, try_except, bind, subprocess_run.
  rewrite Hall. simpl. rewrite Hdates. simpl.
  rewrite last_snoc. repeat split; congruence.
Qed.

(** X9 at a concrete job. *)
Lemma X9_both_passes_ok_witness :
  let st := initial_state ∅ in
  let st' := (process_image all_tools_work true "z.jpg" st).2 in
  successful_conversions st' = 1
  ∧ metadata_preserved st' = 1
  ∧ st_fs st' = {["webp_output/z.webp"]}
  ∧ list.last (st_trace st')
    = Some (copy_dates_cmd "z.jpg"
              (get_unique_output_path (st_fs st) "z.jpg" output_dir),
            Exited 0).
Proof.
  apply (X9_both_passes_ok_counts_metadata all_tools_work "z.jpg"
           (initial_state ∅)
           (mkState {["webp_output/z.webp"]}
              [(cwebp_cmd "z.jpg" "webp_output/z.webp", Exited 0)] 0 0)
           {["webp_output/z.webp"]} {["webp_output/z.webp"]}).
  - vm_compute. reflexivity.
  - vm_compute. reflexivity.
  - vm_compute. reflexivity.
Defined.

(** X10. [copy_metadata] catches [CalledProcessError] only. So when the
    conversion step of a job has succeeded and exiftool, found at startup,
    cannot be started for one of the two passes, [FileNotFoundError]
    reaches the handler of the main loop: the job is abandoned with both
    counters unchanged, although its conversion was carried out; nothing is
    invoked after the pass that could not start. *)
Theorem X10_vanished_exiftool_uncounts_conversion :
  ∀ (tool : Tool) (img : string) (st st1 : State) (fs' : gset string),
    let out := get_unique_output_path (st_fs st) img output_dir in
    convert_step tool img out st = (Ret tt, st1) →
    metadata_pass_cannot_start tool img out st1 fs' →
    let st' := (process_image tool true img st).2 in
    same_counters st st'
    ∧ st_fs st' = fs'
    ∧ ∃ cmd, list.last (st_trace st') = Some (cmd, NoExecutable)
             ∧ copies_tags_to out cmd.
Proof.
  intros tool img st st1 fs' out Hconv Hfail st'. subst st'.
  rewrite process_image_unfold. cbv zeta. fold out. rewrite Hconv.
  pose proof (convert_step_same_counters tool img out st) as Hc1.
  rewrite Hconv in Hc1. simpl in Hc1.
  rewrite metadata_step_unfold.
  unfold copy_metadata, try_except, bind, subprocess_run.
  destruct Hfail as [Htool|(fs1 & Htool1 & Htool2)].
  - rewrite Htool. simpl. split; [done|]. split; [done|].
    eexists. rewrite last_snoc. split; [done|]. exists img. by left.
  - rewrite Htool1. simpl. rewrite Htool2. simpl. split; [done|]. split; [done|].
    eexists. rewrite last_snoc. split; [done|]. exists img. by right.
Qed.

(** X10 at a concrete job: [z.jpg] is converted, then exiftool is gone. *)
Lemma X10_vanished_exiftool_witness :
  let st := initial_state ∅ in
  let st' := (process_image exiftool_vanishes true "z.jpg" st).2 in
  same_counters st st'
  ∧ st_fs st' = {["webp_output/z.webp"]}
  ∧ ∃ cmd, list.last (st_trace st') = Some (cmd, NoExecutable)
           ∧ copies_tags_to
               (get_unique_output_path (st_fs st) "z.jpg" output_dir) cmd.
Proof.
  apply (X10_vanished_exiftool_uncounts_conversion exiftool_vanishes "z.jpg"
           (initial_state ∅)
           (mkState {["webp_output/z.webp"]}
              [(cwebp_cmd "z.jpg" "webp_output/z.webp", Exited 0)] 0 0)
           {["webp_output/z.webp"]}).
  - vm_compute. reflexivity.
  - left. vm_compute. reflexivity.
Defined.

(** X11. On the two-step path, a conversion step that returns normally has
    deleted the intermediate path, whether or not something existed there
    before the job: a file the user kept at [webp_output/<stem>_temp.jpg]
    is gone afterwards. With an encoder that creates its output, the output
    exists at that moment. *)
Theorem X11_successful_heic_conversion_removes_intermediate :
  ∀ (tool : Tool) (img out : string) (st st1 : State),
    is_heic img = true →
    convert_step tool img out st = (Ret tt, st1) →
    (temp_jpg_path img ∉ st_fs st1)
    ∧ (cwebp_creates_output tool → Text.endswith out ".webp" = true →
       out ∈ st_fs st1)
    ∧ ∃ o, list.last (st_trace st1)
           = Some (cwebp_cmd (temp_jpg_path img) out, o).
Proof.
  intros tool img out st st1 Hheic Hconv.
  split; [by eapply convert_step_heic_removes_temp|]. split.
  - intros Hcreates Hout. by eapply convert_step_Ret_output.
  - revert Hconv. unfold convert_step. rewrite Hheic. unfold bind.
    destruct (convert_heic_to_jpeg tool img (temp_jpg_path img) st)
      as [[b|e] s1]; [|done].
    destruct (negb b); simpl; [done|].
    pose proof (run_trace tool (cwebp_cmd (temp_jpg_path img) out) s1) as Htr.
    destruct (subprocess_run tool _ s1) as [[[]|e] s2]; [|done].
    unfold unlink. case_bool_decide; [|done].
    intros [= <-]. simpl in *. rewrite Htr, last_snoc. by eexists.
Qed.

(** X11 at a concrete job, with a file already at the intermediate path. *)
Lemma X11_successful_heic_conversion_witness :
  let st := initial_state {["webp_output/y_temp.jpg"]} in
  let st1 := (convert_step all_tools_work "y.heic" "webp_output/y.webp" st).2 in
  (temp_jpg_path "y.heic" ∉ st_fs st1)
  ∧ (cwebp_creates_output all_tools_work →
     Text.endswith "webp_output/y.webp" ".webp" = true →
     "webp_output/y.webp" ∈ st_fs st1)
  ∧ ∃ o, list.last (st_trace st1)
         = Some (cwebp_cmd (temp_jpg_path "y.heic") "webp_output/y.webp", o).
Proof.
  apply (X11_successful_heic_conversion_removes_intermediate all_tools_work
           "y.heic" "webp_output/y.webp"
           (initial_state {["webp_output/y_temp.jpg"]})).
  - vm_compute. reflexivity.
  - vm_compute. reflexivity.
Defined.

(** X12. [Path.unlink] raises when the path is missing. So on the two-step
    path, when the decode helper and the encoder have both succeeded but
    the intermediate file does not exist at line 134, the job is abandoned
    with both counters unchanged although the output was encoded. *)
Theorem X12_missing_intermediate_uncounts_conversion :
  ∀ (tool : Tool) (has_exiftool : bool) (img : string) (st s1 s2 : State),
    let out := get_unique_output_path (st_fs st) img output_dir in
    let temp := temp_jpg_path img in
    is_heic img = true →
    convert_heic_to_jpeg tool img temp st = (Ret true, s1) →
    subprocess_run tool (cwebp_cmd temp out) s1 = (Ret tt, s2) →
    temp ∉ st_fs s2 →
    process_image tool has_exiftool img st = (Ret tt, s2)
    ∧ same_counters st s2.
Proof.
  intros tool has_exiftool img st s1 s2 out temp Hheic Hdecode Hencode Hgone.
  assert (convert_step tool img out st = (Raise FileNotFoundError, s2)) as Hconv.
  { unfold convert_step. rewrite Hheic. fold temp. unfold bind.
    rewrite Hdecode. simpl. rewrite Hencode. unfold unlink.
    by rewrite bool_decide_eq_false_2. }
  split.
  - rewrite process_image_unfold. cbv zeta. fold out. by rewrite Hconv.
  - pose proof (convert_step_same_counters tool img out st) as Hc.
    by rewrite Hconv in Hc.
Qed.

(** X12 at a concrete job: the decoder exits with 0 without writing. *)
Lemma X12_missing_intermediate_witness :
  let st := initial_state ∅ in
  let s2 :=
    mkState {["webp_output/y.webp"]}
      [(sips_cmd "y.heic" "webp_output/y_temp.jpg", Exited 0);
       (exiftool_ver_cmd, Exited 0);
       (copy_all_cmd "y.heic" "webp_output/y_temp.jpg", Exited 0);
       (copy_dates_cmd "y.heic" "webp_output/y_temp.jpg", Exited 0);
       (cwebp_cmd "webp_output/y_temp.jpg" "webp_output/y.webp", Exited 0)]
      0 0 in
  process_image sips_writes_nothing true "y.heic" st = (Ret tt, s2)
  ∧ same_counters st s2.
Proof.
  apply (X12_missing_intermediate_uncounts_conversion sips_writes_nothing true
           "y.heic" (initial_state ∅)
           (mkState ∅
              [(sips_cmd "y.heic" "webp_output/y_temp.jpg", Exited 0);
               (exiftool_ver_cmd, Exited 0);
               (copy_all_cmd "y.heic" "webp_output/y_temp.jpg", Exited 0);
               (copy_dates_cmd "y.heic" "webp_output/y_temp.jpg", Exited 0)]
              0 0)).
  - vm_compute. reflexivity.
  - vm_compute. reflexivity.
  - vm_compute. reflexivity.
  - apply (bool_decide_unpack _). vm_compute. exact I.
Defined.

(** ** How often the external programs are invoked *)

Section InvocationCounts.

Context (tool : Tool).

Lemma count_prog_app prog l1 l2 :
  count_prog prog (l1 ++ l2) = count_prog prog l1 + count_prog prog l2.
Proof. unfold count_prog. by rewrite List.filter_app, length_app. Qed.

Lemma count_prog_cons_ver prog o l :
  prog ≠ "exiftool" →
  count_prog prog ((exiftool_ver_cmd, o) :: l) = count_prog prog l.
Proof.
  intros Hprog. unfold count_prog. simpl.
  by rewrite bool_decide_eq_false_2 by (intros H; by apply Hprog).
Qed.

Lemma within_refl st : within 0 0 0 st st.
Proof. exists []. by rewrite app_nil_r. Qed.

Lemma within_trans s1 c1 n1 s2 c2 n2 st1 st2 st3 :
  within s1 c1 n1 st1 st2 → within s2 c2 n2 st2 st3 →
  within (s1 + s2) (c1 + c2) (n1 + n2) st1 st3.
Proof.
  intros (l1 & H1 & Hs1 & Hc1 & Hn1) (l2 & H2 & Hs2 & Hc2 & Hn2).
  exists (l1 ++ l2). rewrite H2, H1, <-app_assoc, !count_prog_app, length_app.
  split; [done|]. lia.
Qed.

Lemma within_weaken s c n s' c' n' st st' st'' :
  within s c n st st' → st_trace st'' = st_trace st' →
  s' = s → c ≤ c' → n ≤ n' → within s' c' n' st st''.
Proof.
  intros (l & H & Hs & Hc & Hn) Htr -> ? ?. exists l. rewrite Htr.
  split; [done|]. lia.
Qed.

Ltac within_from H :=
  eapply within_weaken;
    [exact H | reflexivity
     | try (match goal with
            | |- context [is_heic ?i] => destruct (is_heic i)
            end); simpl; lia ..].

Lemma run_within cmd st :
  within (if bool_decide (hd "" cmd = "sips") then 1 else 0)
    (if bool_decide (hd "" cmd = "cwebp") then 1 else 0) 1
    st (subprocess_run tool cmd st).2.
Proof.
  eexists. split; [apply run_trace|]. unfold count_prog. simpl.
  repeat case_bool_decide; simpl; lia.
Qed.

Lemma check_exiftool_within st : within 0 0 1 st (check_exiftool tool st).2.
Proof.
  rewrite check_exiftool_unfold. eexists. split; [reflexivity|]. by vm_compute.
Qed.

Lemma copy_metadata_within src dst st :
  within 0 0 2 st (copy_metadata tool src dst st).2.
Proof.
  unfold copy_metadata, try_except. unfold bind at 1.
  pose proof (run_within (copy_all_cmd src dst) st) as H1.
  destruct (subprocess_run tool (copy_all_cmd src dst) st) as [[[]|e] st1];
    simpl in H1.
  - unfold bind.
    pose proof (run_within (copy_dates_cmd src dst) st1) as H2.
    pose proof (within_trans _ _ _ _ _ _ _ _ _ H1 H2) as H.
    destruct (subprocess_run tool (copy_dates_cmd src dst) st1)
      as [[[]|e] st2]; simpl in *; [within_from H|].
    destruct e; simpl; within_from H.
  - destruct e; simpl; within_from H1.
Qed.

Lemma convert_heic_to_jpeg_within heic jpeg st :
  within 1 0 4 st (convert_heic_to_jpeg tool heic jpeg st).2.
Proof.
  rewrite convert_heic_to_jpeg_unfold.
  pose proof (run_within (sips_cmd heic jpeg) st) as H1.
  destruct (subprocess_run tool (sips_cmd heic jpeg) st) as [[[]|e] st1];
    simpl in H1.
  - pose proof (check_exiftool_within st1) as H2.
    pose proof (within_trans _ _ _ _ _ _ _ _ _ H1 H2) as H12.
    destruct (check_exiftool tool st1) as [[[]|e] st2]; simpl in *.
    + pose proof (copy_metadata_within heic jpeg st2) as H3.
      pose proof (within_trans _ _ _ _ _ _ _ _ _ H12 H3) as H.
      destruct (copy_metadata tool heic jpeg st2) as [[b|e] st3]; simpl in *;
        [within_from H|].
      destruct (is_CalledProcessError e); simpl; within_from H.
    + within_from H12.
    + destruct (is_CalledProcessError e); simpl; within_from H12.
  - destruct (is_CalledProcessError e); simpl; within_from H1.
Qed.

Lemma convert_step_within img out st :
  within (if is_heic img then 1 else 0) 1 (if is_heic img then 5 else 1)
    st (convert_step tool img out st).2.
Proof.
  unfold convert_step. destruct (is_heic img).
  - unfold bind.
    pose proof (convert_heic_to_jpeg_within img (temp_jpg_path img) st) as H1.
    destruct (convert_heic_to_jpeg tool img (temp_jpg_path img) st)
      as [[b|e] s1]; simpl in H1; [|within_from H1].
    destruct (negb b); simpl; [within_from H1|].
    pose proof (run_within (cwebp_cmd (temp_jpg_path img) out) s1) as H2.
    simpl in H2.
    pose proof (within_trans _ _ _ _ _ _ _ _ _ H1 H2) as H.
    destruct (subprocess_run tool _ s1) as [[[]|e] s2]; simpl in *;
      [|within_from H].
    unfold unlink. case_bool_decide; simpl; within_from H.
  - pose proof (run_within (cwebp_cmd img out) st) as H. simpl in H.
    within_from H.
Qed.

Lemma metadata_step_within has_exiftool img out st :
  within 0 0 2 st (metadata_step tool has_exiftool img out st).2.
Proof.
  rewrite metadata_step_unfold.
  pose proof (within_refl st) as H0.
  destruct has_exiftool; [|within_from H0].
  pose proof (copy_metadata_within img out st) as H.
  destruct (copy_metadata tool img out st) as [[[]|e] st1]; simpl in *;
    within_from H.
Qed.

Lemma process_image_within has_exiftool img st :
  within (if is_heic img then 1 else 0) 1 (if is_heic img then 7 else 3)
    st (process_image tool has_exiftool img st).2.
Proof.
  rewrite process_image_unfold. cbv zeta.
  set (out := get_unique_output_path _ _ _).
  pose proof (convert_step_within img out st) as H1.
  destruct (convert_step tool img out st) as [[[]|e] st1]; simpl in H1.
  - pose proof (metadata_step_within has_exiftool img out st1) as H2.
    pose proof (within_trans _ _ _ _ _ _ _ _ _ H1 H2) as H.
    destruct (metadata_step tool has_exiftool img out st1) as [[[]|e] st2];
      simpl in *; within_from H.
  - simpl. within_from H1.
Qed.

Lemma main_loop_within has_exiftool image_files st :
  let heics := List.length (List.filter is_heic image_files) in
  within heics (List.length image_files)
    (3 * List.length image_files + 4 * heics)
    st (main_loop tool has_exiftool image_files st).2.
Proof.
  revert st. induction image_files as [|img rest IH]; intros st.
  - apply within_refl.
  - cbv zeta. rewrite main_loop_cons.
    pose proof (process_image_within has_exiftool img st) as H1.
    pose proof (within_trans _ _ _ _ _ _ _ _ _ H1 (IH _)) as H.
    simpl. destruct (is_heic img); simpl in *;
      (eapply within_weaken; [exact H|reflexivity|lia..]).
Qed.

End InvocationCounts.

